(** * 21cm brightness-temperature sensitivity script: model and properties

    Shallow embedding of [src/21cm_analysis.py].  The script is a sequence of
    module-level loops that call the external simulation [T_b], reduce each
    simulated field with [np.mean], collect the results in module-level
    variables ([Tb_std], [Tb_hubble], [Tb_matter], [Tb_baryon]) and later
    derive percentage differences with numpy arithmetic.

    - numpy [float64] values are IEEE 754 binary64 numbers, modelled with the
      standard library's executable specification [SpecFloat];
    - the module-level variables form an explicit store, threaded through a
      state-and-exception monad; the store survives an exception, as Python's
      globals do;
    - the external [T_b] is a parameter of the script; every call made to it
      is recorded in the store, so that properties of the calls can be stated;
    - console output and plotting are left out. *)

From Stdlib Require Import String ZArith List Bool Lia.
From Stdlib Require Import Floats.SpecFloat.
Import ListNotations.

Open Scope Z_scope.

(** ** numpy float64 *)

Definition float : Type := spec_float.

Module F64.

Definition prec : Z := 53.
Definition emax : Z := 1024.

Definition add : float -> float -> float := SFadd prec emax.
Definition sub : float -> float -> float := SFsub prec emax.
Definition mul : float -> float -> float := SFmul prec emax.
Definition div : float -> float -> float := SFdiv prec emax.

(** Python's [==] on floats. *)
Definition eqb : float -> float -> bool := SFeqb.

(** An integer converted to float64 (round to nearest even). *)
Definition of_Z (n : Z) : float := binary_normalize prec emax n 0 false.

Definition zero : float := S754_zero false.
Definition nan : float := S754_nan.
Definition inf : float := S754_infinity false.

Definition is_zero (x : float) : bool :=
  match x with S754_zero _ => true | _ => false end.

Definition is_nan (x : float) : bool :=
  match x with S754_nan => true | _ => false end.

(** [np.isfinite]. *)
Definition is_finite (x : float) : bool :=
  match x with
  | S754_zero _ | S754_finite _ _ _ => true
  | S754_infinity _ | S754_nan => false
  end.

(** A decimal literal [n / d] with [n] and [d] exactly representable: the
    correctly rounded quotient is the float nearest to the decimal. *)
Definition lit (n d : Z) : float := div (of_Z n) (of_Z d).

End F64.

(** ** Exceptions and outcomes *)

(** A Python exception, identified by the name of its class. *)
Inductive pyexn : Type := PyExn (cls : string).

Definition ValueError : pyexn := PyExn "ValueError".
Definition IndexError : pyexn := PyExn "IndexError".
Definition NameError : pyexn := PyExn "NameError".
Definition KeyError : pyexn := PyExn "KeyError".
Definition AttributeError : pyexn := PyExn "AttributeError".

Inductive outcome (A : Type) : Type :=
| Ok (a : A)
| Raise (e : pyexn).
Arguments Ok {A} a.
Arguments Raise {A} e.

(** ** numpy arithmetic on one-dimensional arrays *)

Fixpoint zip_with (op : float -> float -> float) (a b : list float) : list float :=
  match a, b with
  | x :: a', y :: b' => op x y :: zip_with op a' b'
  | _, _ => []
  end.

(** [a op b] for arrays of shapes [(n,)] and [(m,)]: element by element when
    [n = m], a one-element operand is broadcast, any other pair of shapes
    raises [ValueError] (operands could not be broadcast together). *)
Definition np_binop (op : float -> float -> float) (a b : list float)
  : outcome (list float) :=
  if Nat.eqb (length a) (length b) then Ok (zip_with op a b)
  else match a, b with
       | [x], _ => Ok (map (fun y => op x y) b)
       | _, [y] => Ok (map (fun x => op x y) a)
       | _, _ => Raise ValueError
       end.

(** [a op c] for an array and a Python scalar. *)
Definition np_scalar_op (op : float -> float -> float) (a : list float) (c : float)
  : list float :=
  map (fun x => op x c) a.

(** The percentage difference of one observable. *)
Definition percent (s b : float) : float :=
  F64.mul (F64.div (F64.sub s b) b) (F64.of_Z 100).

(** [diff = (Tb_hubble[h] - Tb_std) / Tb_std * 100] on whole arrays
    (lines 136, 187, 194, 201). *)
Definition diff (series Tb_std : list float) : outcome (list float) :=
  match np_binop F64.sub series Tb_std with
  | Raise e => Raise e
  | Ok d =>
      match np_binop F64.div d Tb_std with
      | Raise e => Raise e
      | Ok q => Ok (np_scalar_op F64.mul q (F64.of_Z 100))
      end
  end.

(** [a[-1]] on a one-dimensional array. *)
Definition last_item (a : list float) : outcome float :=
  match rev a with
  | [] => Raise IndexError
  | x :: _ => Ok x
  end.

(** [diff = (Tb_hubble[h][-1] - Tb_std[-1]) / Tb_std[-1] * 100] on the final
    entries (lines 278, 284, 290); the operands are numpy scalars. *)
Definition diff_last (series Tb_std : list float) : outcome float :=
  match last_item series with
  | Raise e => Raise e
  | Ok s =>
      match last_item Tb_std with
      | Raise e => Raise e
      | Ok b => Ok (percent s b)
      end
  end.

(** ** [np.mean]

    [np.mean(a)] is [np.add.reduce(a) / a.size].  The field is read as a
    contiguous array, its items in memory order; numpy (1.25 or later) then
    adds them as follows. *)

(** [-0.0], the value an addition of floats starts from. *)
Definition neg_zero : float := S754_zero true.

(** The unrolled loop of numpy's pairwise summation: [groups] times, the next
    eight items are added to the eight partial sums [r], item [j] of a group
    to partial sum [j].  Returns the partial sums and the items left. *)
Fixpoint add_rows (groups : nat) (r a : list float) : list float * list float :=
  match groups with
  | O => (r, a)
  | S g => add_rows g (zip_with F64.add r (firstn 8 a)) (skipn 8 a)
  end.

(** A block of 8 to 128 items: eight interleaved partial sums, started from
    the first eight items, added up as
    [((r0 + r1) + (r2 + r3)) + ((r4 + r5) + (r6 + r7))]; the items after the
    last full group of eight are then added one by one. *)
Definition sum_block (a : list float) : float :=
  let '(r, rest) := add_rows (length a / 8 - 1) (firstn 8 a) (skipn 8 a) in
  let reg j := nth j r neg_zero in
  fold_left F64.add rest
    (F64.add (F64.add (F64.add (reg 0%nat) (reg 1%nat))
                      (F64.add (reg 2%nat) (reg 3%nat)))
             (F64.add (F64.add (reg 4%nat) (reg 5%nat))
                      (F64.add (reg 6%nat) (reg 7%nat)))).

(** numpy's [pairwise_sum]: fewer than 8 items are added one by one from
    [-0.0]; up to 128 items form one block; more are split in two parts, the
    first of [n/2] items rounded down to a multiple of 8, summed separately
    and added.  [fuel] bounds the depth of the splitting; the length of the
    array is enough. *)
Fixpoint pairwise_sum (fuel : nat) (a : list float) : float :=
  if (length a <? 8)%nat then fold_left F64.add a neg_zero
  else if (length a <=? 128)%nat then sum_block a
  else
    match fuel with
    | O => sum_block a
    | S f =>
        let n2 := (length a / 2 - (length a / 2) mod 8)%nat in
        F64.add (pairwise_sum f (firstn n2 a)) (pairwise_sum f (skipn n2 a))
    end.

(** [np.add.reduce(a)] on floats: [0.0] for an empty array, otherwise the
    pairwise sum added to the initial value [-0.0]. *)
Definition np_sum (a : list float) : float :=
  match a with
  | [] => F64.zero
  | _ :: _ => F64.add neg_zero (pairwise_sum (length a) a)
  end.

(** [np.mean(a)].  An empty array gives [0.0 / 0]: numpy warns and returns
    the quotient. *)
Definition np_mean (a : list float) : float :=
  F64.div (np_sum a) (F64.of_Z (Z.of_nat (length a))).

(** [np.linspace(start, stop, num)] as numpy computes it (endpoint included). *)
Definition linspace (start stop : float) (num : nat) : list float :=
  let dv := Z.of_nat num - 1 in
  let delta := F64.sub stop start in
  let y := map (fun i => F64.of_Z (Z.of_nat i)) (seq 0 num) in
  let y :=
    if 0 <? dv then
      let step := F64.div delta (F64.of_Z dv) in
      if F64.eqb step F64.zero
      then map (fun v => F64.mul (F64.div v (F64.of_Z dv)) delta) y
      else map (fun v => F64.mul v step) y
    else map (fun v => F64.mul v delta) y in
  let y := map (fun v => F64.add v start) y in
  if 0 <? dv then removelast y ++ [stop] else y.

(** ** The simulation boundary *)

(** What [T_b] returns: an object whose [brightness_temp] attribute is the
    simulated field, read as a flat sequence of floats. *)
Record T_b_result : Type := { brightness_temp : list float }.

(** [T_b(box, redshift, hubble, matter, baryon)]: the external simulation.
    It is not defined in the script; it returns a result or raises. *)
Definition simulation : Type :=
  Z -> float -> float -> float -> float -> outcome T_b_result.

(** One recorded call of [T_b]. *)
Record call : Type := mkCall {
  c_box : Z;
  c_redshift : float;
  c_hubble : float;
  c_matter : float;
  c_baryon : float
}.

(** ** Configuration: the module-level constants (lines 5-17) *)

Record params : Type := mkParams {
  hubble : float;
  matter : float;
  baryon : float
}.

Record config : Type := mkConfig {
  z : list float;
  std_params : params;
  hubble_variations : list float;
  matter_variations : list float;
  baryon_variations : list float
}.

Definition source_config : config := {|
  z := linspace (F64.of_Z 30) (F64.of_Z 5) 30;
  std_params := {| hubble := F64.lit 69 100;
                   matter := F64.lit 31 100;
                   baryon := F64.lit 2 100 |};
  hubble_variations := [F64.lit 67 100; F64.lit 69 100; F64.lit 71 100];
  matter_variations := [F64.lit 29 100; F64.lit 31 100; F64.lit 33 100];
  baryon_variations := [F64.lit 18 1000; F64.lit 2 100; F64.lit 22 1000]
|}.

(** ** The store: the variables the script assigns *)

(** A series is first a Python list, then a numpy array. *)
Inductive pyseq : Type :=
| PyList (xs : list float)
| NdArray (xs : list float).

Definition items (s : pyseq) : list float :=
  match s with PyList xs | NdArray xs => xs end.

(** [np.array(s)]. *)
Definition np_array (s : pyseq) : pyseq := NdArray (items s).

(** A dict with float keys, in insertion order.  A key is found again when it
    compares equal with [==], or when it is the very object stored.  Floats
    are modelled by their value, and there is one NaN value: it stands for
    one NaN object (as [np.nan] is one object), which is found again through
    its identity.  Lists that hold several different NaN objects are outside
    this model of keys. *)
Definition dict : Type := list (float * pyseq).

Definition key_eqb (a b : float) : bool :=
  (F64.is_nan a && F64.is_nan b) || F64.eqb a b.

Fixpoint dict_get (k : float) (d : dict) : option pyseq :=
  match d with
  | [] => None
  | (k', v') :: d' => if key_eqb k' k then Some v' else dict_get k d'
  end.

Fixpoint dict_set (k : float) (v : pyseq) (d : dict) : dict :=
  match d with
  | [] => [(k, v)]
  | (k', v') :: d' =>
      if key_eqb k' k then (k', v) :: d' else (k', v') :: dict_set k v d'
  end.

Definition dict_keys (d : dict) : list float := map fst d.

(** [None] is a name not bound yet. *)
Record store : Type := mkStore {
  Tb_std : option pyseq;
  Tb_hubble : option dict;
  Tb_matter : option dict;
  Tb_baryon : option dict;
  T_b_calls : list call
}.

Definition initial_store : store := {|
  Tb_std := None;
  Tb_hubble := None;
  Tb_matter := None;
  Tb_baryon := None;
  T_b_calls := []
|}.

Definition set_Tb_std (v : pyseq) (st : store) : store :=
  {| Tb_std := Some v;
     Tb_hubble := Tb_hubble st;
     Tb_matter := Tb_matter st;
     Tb_baryon := Tb_baryon st;
     T_b_calls := T_b_calls st |}.

Definition record_call (c : call) (st : store) : store :=
  {| Tb_std := Tb_std st;
     Tb_hubble := Tb_hubble st;
     Tb_matter := Tb_matter st;
     Tb_baryon := Tb_baryon st;
     T_b_calls := T_b_calls st ++ [c] |}.

(** The three parameter axes and their dicts. *)
Inductive axis : Type := Hubble | Matter | Baryon.

Definition axis_dict (a : axis) (st : store) : option dict :=
  match a with
  | Hubble => Tb_hubble st
  | Matter => Tb_matter st
  | Baryon => Tb_baryon st
  end.

Definition set_axis_dict (a : axis) (d : dict) (st : store) : store :=
  match a with
  | Hubble => {| Tb_std := Tb_std st; Tb_hubble := Some d;
                 Tb_matter := Tb_matter st; Tb_baryon := Tb_baryon st;
                 T_b_calls := T_b_calls st |}
  | Matter => {| Tb_std := Tb_std st; Tb_hubble := Tb_hubble st;
                 Tb_matter := Some d; Tb_baryon := Tb_baryon st;
                 T_b_calls := T_b_calls st |}
  | Baryon => {| Tb_std := Tb_std st; Tb_hubble := Tb_hubble st;
                 Tb_matter := Tb_matter st; Tb_baryon := Some d;
                 T_b_calls := T_b_calls st |}
  end.

(** ** The monad of the script: state, and exceptions that keep the state *)

Definition M (A : Type) : Type := store -> outcome A * store.

Definition ret {A : Type} (a : A) : M A := fun st => (Ok a, st).

Definition raise {A : Type} (e : pyexn) : M A := fun st => (Raise e, st).

Definition bind {A B : Type} (m : M A) (k : A -> M B) : M B :=
  fun st =>
    match m st with
    | (Ok a, st') => k a st'
    | (Raise e, st') => (Raise e, st')
    end.

Definition get : M store := fun st => (Ok st, st).

Definition modify (f : store -> store) : M unit := fun st => (Ok tt, f st).

Declare Scope script_scope.
Delimit Scope script_scope with script.
Notation "x <- m ;; k" := (bind m (fun x => k))
  (at level 61, m at next level, right associativity) : script_scope.
Notation "m ;; k" := (bind m (fun _ => k))
  (at level 61, right associativity) : script_scope.
Open Scope script_scope.

(** [for x in xs: body]. *)
Fixpoint for_each {A : Type} (xs : list A) (body : A -> M unit) : M unit :=
  match xs with
  | [] => ret tt
  | x :: xs' => body x ;; for_each xs' body
  end.

(** The list a name is bound to, as [name.append] needs it. *)
Definition as_list (v : option pyseq) : M (list float) :=
  match v with
  | None => raise NameError
  | Some (PyList xs) => ret xs
  | Some (NdArray _) => raise AttributeError
  end.

Definition as_seq (v : option pyseq) : M pyseq :=
  match v with
  | None => raise NameError
  | Some s => ret s
  end.

(** [Tb_x[k]]. *)
Definition getitem (a : axis) (k : float) : M pyseq :=
  st <- get ;;
  match axis_dict a st with
  | None => raise NameError
  | Some d =>
      match dict_get k d with
      | None => raise KeyError
      | Some s => ret s
      end
  end.

(** [Tb_x[k] = v]. *)
Definition setitem (a : axis) (k : float) (v : pyseq) : M unit :=
  st <- get ;;
  match axis_dict a st with
  | None => raise NameError
  | Some d => modify (set_axis_dict a (dict_set k v d))
  end.

(** ** The script, lines 19-81 *)

Section Script.

Variable T_b : simulation.
Variable cfg : config.

(** Lines 19-23. *)
Definition calculate_mean_temperature (redshift hubble matter baryon : float)
  : M float :=
  modify (record_call (mkCall 50 redshift hubble matter baryon)) ;;
  match T_b 50 redshift hubble matter baryon with
  | Raise e => raise e
  | Ok bt => ret (np_mean (brightness_temp bt))
  end.

(** Lines 32-35: [Tb_std.append(calculate_mean_temperature(...))]. *)
Definition append_standard (redshift : float) : M unit :=
  st <- get ;;
  _ <- as_list (Tb_std st) ;;
  v <- calculate_mean_temperature redshift
         (hubble (std_params cfg))
         (matter (std_params cfg))
         (baryon (std_params cfg)) ;;
  st <- get ;;
  xs <- as_list (Tb_std st) ;;
  modify (set_Tb_std (PyList (xs ++ [v]))).

(** Lines 30-37: the standard model. *)
Definition standard_model : M unit :=
  modify (set_Tb_std (PyList [])) ;;
  for_each (z cfg) append_standard ;;
  st <- get ;;
  s <- as_seq (Tb_std st) ;;
  modify (set_Tb_std (np_array s)).

Definition axis_values (a : axis) : list float :=
  match a with
  | Hubble => hubble_variations cfg
  | Matter => matter_variations cfg
  | Baryon => baryon_variations cfg
  end.

(** The call of lines 46-48, 60-63 and 75-78. *)
Definition axis_observable (a : axis) (x redshift : float) : M float :=
  match a with
  | Hubble => calculate_mean_temperature redshift x
                (matter (std_params cfg)) (baryon (std_params cfg))
  | Matter => calculate_mean_temperature redshift
                (hubble (std_params cfg)) x (baryon (std_params cfg))
  | Baryon => calculate_mean_temperature redshift
                (hubble (std_params cfg)) (matter (std_params cfg)) x
  end.

(** Lines 46-48: [Tb_hubble[h].append(calculate_mean_temperature(...))],
    and the same for the two other axes. *)
Definition append_axis (a : axis) (x redshift : float) : M unit :=
  s <- getitem a x ;;
  _ <- as_list (Some s) ;;
  v <- axis_observable a x redshift ;;
  s <- getitem a x ;;
  xs <- as_list (Some s) ;;
  setitem a x (PyList (xs ++ [v])).

(** Lines 43-51: the sweep of one axis value. *)
Definition sweep_value (a : axis) (x : float) : M unit :=
  setitem a x (PyList []) ;;
  for_each (z cfg) (append_axis a x) ;;
  s <- getitem a x ;;
  setitem a x (np_array s).

(** Lines 41-51 ([Hubble]), 55-66 ([Matter]) and 70-81 ([Baryon]). *)
Definition axis_sweep (a : axis) : M unit :=
  modify (set_axis_dict a []) ;;
  for_each (axis_values a) (sweep_value a).

(** The computing part of the script. *)
Definition script : M unit :=
  standard_model ;;
  axis_sweep Hubble ;;
  axis_sweep Matter ;;
  axis_sweep Baryon.

Definition run_script : outcome unit * store := script initial_store.

End Script.

(** ** Constants of the examples *)

Definition f10 : float := F64.of_Z 10.
Definition f12 : float := F64.of_Z 12.
Definition f20 : float := F64.of_Z 20.

(** A simulation that returns the same two-cell field everywhere. *)
Definition constant_simulation : simulation :=
  fun _ _ _ _ _ => Ok {| brightness_temp := [f10; f12] |}.

(** A simulation that raises for [hubble = 0.71] at redshift 5, the last
    point of the grid, and returns a field everywhere else. *)
Definition failing_simulation : simulation :=
  fun _ redshift hubble _ _ =>
    if F64.eqb hubble (F64.lit 71 100) && F64.eqb redshift (F64.of_Z 5)
    then Raise (PyExn "SimulationError")
    else Ok {| brightness_temp := [f10; f12] |}.

(** ** Reference semantics of the loops

    What one pass over a redshift grid computes, as a pure function: the
    observables obtained before the first failure, the calls made, and the
    exception that stopped the pass, if any. *)

Section Reference.

Variable T_b : simulation.
Variable cfg : config.

Definition the_call (p : params) (redshift : float) : call :=
  mkCall 50 redshift (hubble p) (matter p) (baryon p).

Definition call_result (c : call) : outcome T_b_result :=
  T_b (c_box c) (c_redshift c) (c_hubble c) (c_matter c) (c_baryon c).

Definition observable (p : params) (redshift : float) : outcome float :=
  match call_result (the_call p redshift) with
  | Raise e => Raise e
  | Ok bt => Ok (np_mean (brightness_temp bt))
  end.

Fixpoint run_grid (p : params) (g : list float)
  : list float * list call * option pyexn :=
  match g with
  | [] => ([], [], None)
  | r :: g' =>
      match observable p r with
      | Raise e => ([], [the_call p r], Some e)
      | Ok v =>
          let '(vs, cs, e) := run_grid p g' in
          (v :: vs, the_call p r :: cs, e)
      end
  end.

(** The parameter set of an axis value: the standard one with the axis's
    field replaced. *)
Definition axis_params (a : axis) (x : float) : params :=
  match a with
  | Hubble => mkParams x (matter (std_params cfg)) (baryon (std_params cfg))
  | Matter => mkParams (hubble (std_params cfg)) x (baryon (std_params cfg))
  | Baryon => mkParams (hubble (std_params cfg)) (matter (std_params cfg)) x
  end.

(** The standard value of an axis. *)
Definition std_value (a : axis) : float :=
  match a with
  | Hubble => hubble (std_params cfg)
  | Matter => matter (std_params cfg)
  | Baryon => baryon (std_params cfg)
  end.

(** One pass over the values of an axis, from dict [d]. *)
Fixpoint run_axis (a : axis) (xs : list float) (d : dict)
  : dict * list call * option pyexn :=
  match xs with
  | [] => (d, [], None)
  | x :: xs' =>
      match run_grid (axis_params a x) (z cfg) with
      | (vs, cs, Some e) => (dict_set x (PyList vs) d, cs, Some e)
      | (vs, cs, None) =>
          let '(d', cs', e) := run_axis a xs' (dict_set x (NdArray vs) d) in
          (d', cs ++ cs', e)
      end
  end.

End Reference.

Definition result_of (e : option pyexn) : outcome unit :=
  match e with
  | None => Ok tt
  | Some e => Raise e
  end.

Definition add_calls (cs : list call) (st : store) : store :=
  {| Tb_std := Tb_std st;
     Tb_hubble := Tb_hubble st;
     Tb_matter := Tb_matter st;
     Tb_baryon := Tb_baryon st;
     T_b_calls := T_b_calls st ++ cs |}.

(** The field of a call that an axis varies. *)
Definition axis_field (a : axis) (c : call) : float :=
  match a with
  | Hubble => c_hubble c
  | Matter => c_matter c
  | Baryon => c_baryon c
  end.

(** Keys that are pairwise different for the dict. *)
Fixpoint distinct_keys (xs : list float) : bool :=
  match xs with
  | [] => true
  | x :: xs' => forallb (fun y => negb (key_eqb x y)) xs' && distinct_keys xs'
  end.

(** ** Traces of calls and what a run leaves behind *)

Section Traces.

Variable T_b : simulation.
Variable cfg : config.

(** A call that returns. *)
Definition succeeds (c : call) : Prop :=
  exists bt, call_result T_b c = Ok bt.

(** A trace of calls that ended with [e]: every call but the last returned,
    and the last one raised [e] if there is an [e]. *)
Definition trace_ok (cs : list call) (e : option pyexn) : Prop :=
  match e with
  | None => Forall succeeds cs
  | Some ex =>
      exists pre c, cs = pre ++ [c] /\ Forall succeeds pre /\
                    call_result T_b c = Raise ex
  end.

(** The exception of an outcome, if any. *)
Definition error_of {A : Type} (o : outcome A) : option pyexn :=
  match o with
  | Ok _ => None
  | Raise e => Some e
  end.

(** The series that was being filled when call [c] was made is still a
    Python list, shorter than the grid. *)
Definition partial_series_left (st : store) (c : call) : Prop :=
  (exists vs, Tb_std st = Some (PyList vs) /\
              (length vs < length (z cfg))%nat) \/
  (exists a d vs, axis_dict a st = Some d /\
                  dict_get (axis_field a c) d = Some (PyList vs) /\
                  (length vs < length (z cfg))%nat).

(** What a run leaves behind: the trace of its calls and, after a failure,
    the partial series of the failed call. *)
Definition run_ok (before : list call) (r : outcome unit * store) : Prop :=
  exists cs,
    T_b_calls (snd r) = before ++ cs /\
    trace_ok cs (error_of (fst r)) /\
    (forall e, fst r = Raise e ->
       exists pre c, cs = pre ++ [c] /\ partial_series_left (snd r) c).

(** The series of an axis value, when its pass over the grid succeeds. *)
Definition axis_series (a : axis) (x : float) : pyseq :=
  NdArray (fst (fst (run_grid T_b (axis_params cfg a x) (z cfg)))).

(** Every call that [m] adds to the trace satisfies [P]. *)
Definition calls_satisfy {A : Type} (P : call -> Prop) (m : M A) : Prop :=
  forall st, exists cs,
    T_b_calls (snd (m st)) = T_b_calls st ++ cs /\ Forall P cs.

End Traces.

(** ** The reporting part of the script, lines 90-291

    The figure and the printed summary are left out; what is modelled is the
    data the script computes for them and hands to [plot], [bar] and
    [print], and the exceptions raised on the way. *)

Definition TypeError : pyexn := PyExn "TypeError".

(** Lines 90-92. *)
Definition colors_h : list string := ["blue"; "black"; "red"]%string.
Definition colors_m : list string := ["green"; "black"; "purple"]%string.
Definition colors_b : list string := ["orange"; "black"; "brown"]%string.

Definition axis_colors (a : axis) : list string :=
  match a with
  | Hubble => colors_h
  | Matter => colors_m
  | Baryon => colors_b
  end.

(** One call of [plot]: the axis and value of the label, the colour and the
    plotted data. *)
Record curve : Type := mkCurve {
  curve_axis : axis;
  curve_value : float;
  curve_color : string;
  curve_data : list float
}.

(** The label of a bar: ['Standard'], or the f-string of an axis value, kept
    as the value it formats. *)
Inductive label : Type :=
| Standard
| AxisValue (a : axis) (x : float).

(** The three lists of lines 216-218, filled side by side. *)
Record bars : Type := mkBars {
  parameters : list label;
  values : list float;
  colors : list string
}.

(** One line of the printed summary: the value, the final observable and its
    percentage difference. *)
Record summary_row : Type := mkRow {
  row_axis : axis;
  row_value : float;
  row_final : float;
  row_diff : float
}.

Definition lift {A : Type} (o : outcome A) : M A := fun st => (o, st).

(** A [for] loop that carries what it builds. *)
Fixpoint for_fold {A S : Type} (xs : list A) (body : A -> S -> M S) (acc : S)
  : M S :=
  match xs with
  | [] => ret acc
  | x :: xs' => acc' <- body x acc ;; for_fold xs' body acc'
  end.

(** [for x in xs: if skip(x): continue; acc.append(f(x))]. *)
Definition collect_unless {A B : Type} (skip : A -> bool) (f : A -> M B)
  (xs : list A) (acc : list B) : M (list B) :=
  for_fold xs
    (fun x acc => if skip x then ret acc else y <- f x ;; ret (acc ++ [y]))
    acc.

(** [(s - b) / b * 100] on the objects bound to the names: numpy converts a
    list operand, two lists cannot be subtracted. *)
Definition array_diff (s b : pyseq) : M (list float) :=
  match s, b with
  | PyList _, PyList _ => raise TypeError
  | _, _ => lift (diff (items s) (items b))
  end.

Section Report.

Variable cfg : config.

(** [zip(hubble_variations, colors_h)] and the like. *)
Definition zipped (a : axis) : list (float * string) :=
  combine (axis_values cfg a) (axis_colors a).

(** [h == std_params['hubble']] and the like. *)
Definition is_standard (a : axis) (h : float) : bool :=
  F64.eqb h (std_value cfg a).

(** The name [Tb_std], read. *)
Definition read_Tb_std : M pyseq :=
  st <- get ;; as_seq (Tb_std st).

(** Lines 99-104, 107-112, 115-120, 151-155 and 168-172: the series of every
    zipped value but the standard one. *)
Definition plot_axis (a : axis) (acc : list curve) : M (list curve) :=
  collect_unless (fun hc => is_standard a (fst hc))
    (fun hc =>
       s <- getitem a (fst hc) ;;
       ret (mkCurve a (fst hc) (snd hc) (items s)))
    (zipped a) acc.

(** Lines 95-120. *)
Definition all_variations : M (list curve) :=
  _ <- read_Tb_std ;;
  cs <- plot_axis Hubble [] ;;
  cs <- plot_axis Matter cs ;;
  plot_axis Baryon cs.

(** Lines 130-138: [diff] is computed, the series is plotted. *)
Definition hubble_panel : M (list curve) :=
  _ <- read_Tb_std ;;
  collect_unless (fun hc => is_standard Hubble (fst hc))
    (fun hc =>
       s <- getitem Hubble (fst hc) ;;
       b <- read_Tb_std ;;
       _ <- array_diff s b ;;
       s <- getitem Hubble (fst hc) ;;
       ret (mkCurve Hubble (fst hc) (snd hc) (items s)))
    (zipped Hubble) [].

(** Lines 148-155 and 165-172. *)
Definition axis_panel (a : axis) : M (list curve) :=
  _ <- read_Tb_std ;;
  plot_axis a [].

(** Lines 184-189, 191-196, 198-203: the percentage differences plotted. *)
Definition difference_curves (a : axis) (acc : list curve) : M (list curve) :=
  collect_unless (fun hc => is_standard a (fst hc))
    (fun hc =>
       s <- getitem a (fst hc) ;;
       b <- read_Tb_std ;;
       d <- array_diff s b ;;
       ret (mkCurve a (fst hc) (snd hc) d))
    (zipped a) acc.

(** Lines 182-203. *)
Definition percentage_differences : M (list curve) :=
  cs <- difference_curves Hubble [] ;;
  cs <- difference_curves Matter cs ;;
  difference_curves Baryon cs.

(** Lines 221-226, 229-234, 237-242. *)
Definition add_bars (a : axis) (acc : bars) : M bars :=
  for_fold (zipped a)
    (fun hc acc =>
       if is_standard a (fst hc) then ret acc
       else
         let ps := parameters acc ++ [AxisValue a (fst hc)] in
         s <- getitem a (fst hc) ;;
         v <- lift (last_item (items s)) ;;
         ret (mkBars ps (values acc ++ [v]) (colors acc ++ [snd hc])))
    acc.

(** Lines 216-242: the bars of the comparison at the final redshift. *)
Definition final_comparison : M bars :=
  b <- read_Tb_std ;;
  v <- lift (last_item (items b)) ;;
  acc <- add_bars Hubble (mkBars [Standard] [v] ["black"%string]) ;;
  acc <- add_bars Matter acc ;;
  add_bars Baryon acc.

(** Lines 276-279, 282-285, 288-291: every value of the axis but the
    standard one, the colours playing no part. *)
Definition summary_axis (a : axis) (acc : list summary_row)
  : M (list summary_row) :=
  collect_unless (is_standard a)
    (fun h =>
       s <- getitem a h ;;
       _ <- lift (last_item (items s)) ;;
       b <- read_Tb_std ;;
       d <- lift (diff_last (items s) (items b)) ;;
       s <- getitem a h ;;
       v <- lift (last_item (items s)) ;;
       ret (mkRow a h v d))
    (axis_values cfg a) acc.

(** Lines 269-291: the standard final observable, then the rows. *)
Definition summary : M (float * list summary_row) :=
  b <- read_Tb_std ;;
  v <- lift (last_item (items b)) ;;
  rows <- summary_axis Hubble [] ;;
  rows <- summary_axis Matter rows ;;
  rows <- summary_axis Baryon rows ;;
  ret (v, rows).

(** What the reporting part computes, section by section. *)
Record report_data : Type := mkReport {
  overview : list curve;
  panels : list curve;
  differences : list curve;
  comparison : bars;
  printed : float * list summary_row
}.

(** Lines 94-291, in the order of the script. *)
Definition reporting : M report_data :=
  o <- all_variations ;;
  ph <- hubble_panel ;;
  pm <- axis_panel Matter ;;
  pb <- axis_panel Baryon ;;
  d <- percentage_differences ;;
  c <- final_comparison ;;
  p <- summary ;;
  ret (mkReport o (ph ++ pm ++ pb) d c p).

Variable T_b : simulation.

(** The whole script. *)
Definition analysis : M report_data := script T_b cfg ;; reporting.

(** The values of an axis that the plots show. *)
Definition plotted_values (a : axis) : list (float * string) :=
  filter (fun hc => negb (is_standard a (fst hc))) (zipped a).

(** The values of an axis that the summary prints. *)
Definition printed_values (a : axis) : list float :=
  filter (fun h => negb (is_standard a h)) (axis_values cfg a).

(** The series bound under [h] in the dict of [a]. *)
Definition series_of (st : store) (a : axis) (h : float) : list float :=
  match axis_dict a st with
  | Some d => match dict_get h d with Some s => items s | None => [] end
  | None => []
  end.

Definition standard_series (st : store) : list float :=
  match Tb_std st with Some s => items s | None => [] end.

(** A store as the sweeps leave it when they all end normally: [Tb_std] and
    every entry of the three dicts are arrays as long as the grid, and every
    value of an axis has an entry. *)
Definition completed (st : store) : Prop :=
  (exists vs, Tb_std st = Some (NdArray vs) /\ length vs = length (z cfg)) /\
  forall a, exists d,
    axis_dict a st = Some d /\
    forall h, In h (axis_values cfg a) ->
      exists s, dict_get h d = Some (NdArray s) /\ length s = length (z cfg).

End Report.

(** The final item of a series that has one. *)
Definition final_of (l : list float) : float := last l F64.zero.

(** The curves of the stored series of an axis, and of their percentage
    differences, for a store [st]. *)
Definition stored_curves (cfg : config) (st : store) (a : axis) : list curve :=
  map (fun hc => mkCurve a (fst hc) (snd hc) (series_of st a (fst hc)))
      (plotted_values cfg a).

Definition percent_curves (cfg : config) (st : store) (a : axis) : list curve :=
  map (fun hc => mkCurve a (fst hc) (snd hc)
                   (zip_with percent (series_of st a (fst hc))
                                     (standard_series st)))
      (plotted_values cfg a).

Definition printed_rows (cfg : config) (st : store) (a : axis)
  : list summary_row :=
  map (fun h => mkRow a h (final_of (series_of st a h))
                 (percent (final_of (series_of st a h))
                          (final_of (standard_series st))))
      (printed_values cfg a).

(** A dict whose entries are all arrays of [n] items. *)
Definition full_entries (n : nat) (d : dict) : Prop :=
  Forall (fun kv => exists s, snd kv = NdArray s /\ length s = n) d.

(** The calls of a sweep over the values [xs] that nothing interrupts. *)
Definition sweep_calls (cfg : config) (a : axis) (xs : list float) : list call :=
  flat_map (fun h => map (the_call (axis_params cfg a h)) (z cfg)) xs.

(** The calls of the sweeps that come before the sweep of [a], when nothing
    interrupts them. *)
Definition earlier_calls (cfg : config) (a : axis) : list call :=
  match a with
  | Hubble => []
  | Matter => sweep_calls cfg Hubble (hubble_variations cfg)
  | Baryon => sweep_calls cfg Hubble (hubble_variations cfg)
              ++ sweep_calls cfg Matter (matter_variations cfg)
  end.

(** ** Float facts *)

Module F64Facts.

Lemma of_Z_100 : F64.of_Z 100 = S754_finite false 7036874417766400 (-46).
Proof. reflexivity. Qed.

Lemma sub_diag_finite (x : float) :
  F64.is_finite x = true -> F64.sub x x = S754_zero false.
Proof.
  destruct x as [s | s | | s m e]; simpl; try discriminate; intros _.
  - destruct s; reflexivity.
  - unfold F64.sub, SFsub. rewrite Z.sub_diag. reflexivity.
Qed.

Lemma percent_self (x : float) :
  F64.is_finite x = true -> F64.is_zero x = false ->
  F64.is_zero (percent x x) = true.
Proof.
  intros Hf Hz. unfold percent. rewrite (sub_diag_finite x Hf), of_Z_100.
  destruct x as [s | s | | s m e]; simpl in *; try discriminate.
  reflexivity.
Qed.

Lemma div_by_zero_not_finite (x z0 : float) :
  F64.is_zero z0 = true -> F64.is_finite (F64.div x z0) = false.
Proof.
  destruct z0; simpl; try discriminate; intros _.
  destruct x; reflexivity.
Qed.

Lemma mul_100_not_finite (x : float) :
  F64.is_finite x = false -> F64.is_finite (F64.mul x (F64.of_Z 100)) = false.
Proof.
  rewrite of_Z_100. destruct x; simpl; try discriminate; reflexivity.
Qed.

Lemma percent_zero_baseline (s b : float) :
  F64.is_zero b = true -> F64.is_finite (percent s b) = false.
Proof.
  intros Hb. unfold percent.
  apply mul_100_not_finite, div_by_zero_not_finite, Hb.
Qed.




Lemma eqb_refl_not_nan (x : float) : F64.is_nan x = false -> F64.eqb x x = true.
Proof.
  destruct x as [s | s | | s m e]; simpl; try discriminate; intros _.
  - reflexivity.
  - destruct s; reflexivity.
  - unfold F64.eqb, SFeqb, SFcompare.
    rewrite Z.compare_refl, Pos.compare_cont_refl. destruct s; reflexivity.
Qed.

End F64Facts.

Lemma key_eqb_refl (x : float) : key_eqb x x = true.
Proof.
  unfold key_eqb. destruct (F64.is_nan x) eqn:E; [reflexivity|].
  simpl. apply F64Facts.eqb_refl_not_nan, E.
Qed.

(** ** The percentage difference *)

Section Diff.

Lemma zip_with_length (op : float -> float -> float) (a b : list float) :
  length a = length b -> length (zip_with op a b) = length b.
Proof.
  revert b. induction a as [|x a IH]; intros [|y b] H; simpl in *;
    try discriminate; auto.
Qed.

Lemma zip_with_nth (op : float -> float -> float) (a b : list float) i x y :
  nth_error a i = Some x -> nth_error b i = Some y ->
  nth_error (zip_with op a b) i = Some (op x y).
Proof.
  revert b i. induction a as [|x0 a IH]; intros [|y0 b] [|i] Ha Hb;
    simpl in *; try discriminate.
  - congruence.
  - eauto.
Qed.

Lemma np_binop_same_length (op : float -> float -> float) (a b : list float) :
  length a = length b -> np_binop op a b = Ok (zip_with op a b).
Proof.
  intros H. unfold np_binop. rewrite H, Nat.eqb_refl. reflexivity.
Qed.

Lemma percent_zip (s b : list float) :
  np_scalar_op F64.mul (zip_with F64.div (zip_with F64.sub s b) b) (F64.of_Z 100)
  = zip_with percent s b.
Proof.
  unfold np_scalar_op.
  revert b. induction s as [|x s IH]; intros [|y b]; try reflexivity.
  cbn [zip_with map]. f_equal. apply IH.
Qed.

Lemma diff_same_length (s b : list float) :
  length s = length b -> diff s b = Ok (zip_with percent s b).
Proof.
  intros H. unfold diff.
  rewrite (np_binop_same_length _ _ _ H).
  rewrite np_binop_same_length by (apply zip_with_length, H).
  rewrite percent_zip. reflexivity.
Qed.

Lemma last_item_nth (a : list float) (x : float) :
  last_item a = Ok x -> nth_error a (length a - 1) = Some x.
Proof.
  unfold last_item. destruct (rev a) as [|y r] eqn:E; [discriminate|].
  intros H. injection H as ->.
  assert (Ha : a = rev r ++ [x]).
  { rewrite <- (rev_involutive a), E. reflexivity. }
  rewrite Ha, length_app, nth_error_app2; simpl; [|lia].
  replace (length (rev r) + 1 - 1 - length (rev r))%nat with 0%nat by lia.
  reflexivity.
Qed.

End Diff.

(** ** The reduction *)

Section Mean.

(** What one bad operand does to a sum: [bad] is any property of floats that
    an addition passes on from either operand (not being finite, being
    NaN). *)
Section Absorbing.

Variable bad : float -> Prop.
Hypothesis bad_add_l : forall x y, bad x -> bad (F64.add x y).
Hypothesis bad_add_r : forall x y, bad y -> bad (F64.add x y).

Lemma fold_bad_acc (l : list float) (acc : float) :
  bad acc -> bad (fold_left F64.add l acc).
Proof.
  revert acc. induction l as [|x l IH]; intros acc H; cbn [fold_left];
    [exact H|].
  apply IH, bad_add_l, H.
Qed.

Lemma fold_bad (l : list float) (acc : float) :
  Exists bad l -> bad (fold_left F64.add l acc).
Proof.
  intros H. revert acc.
  induction H as [x l Hx | x l _ IH]; intros acc; cbn [fold_left].
  - apply fold_bad_acc, bad_add_r, Hx.
  - apply IH.
Qed.

Lemma zip_add_bad (r row : list float) :
  length r = length row ->
  Exists bad r \/ Exists bad row ->
  Exists bad (zip_with F64.add r row).
Proof.
  revert row. induction r as [|x r IH]; intros [|y row] Hl H;
    simpl in Hl; try discriminate.
  - destruct H as [H|H]; inversion H.
  - cbn [zip_with].
    destruct H as [H|H]; inversion H as [? ? Hx | ? ? Hx]; subst.
    + left. apply bad_add_l, Hx.
    + right. apply IH; [congruence | left; exact Hx].
    + left. apply bad_add_r, Hx.
    + right. apply IH; [congruence | right; exact Hx].
Qed.

Lemma Exists_firstn_skipn (n : nat) (a : list float) :
  Exists bad a -> Exists bad (firstn n a) \/ Exists bad (skipn n a).
Proof.
  intros H. rewrite <- (firstn_skipn n a) in H.
  apply Exists_app in H. exact H.
Qed.

Lemma add_rows_bad (groups : nat) :
  forall r a,
    length r = 8%nat -> (8 * groups <= length a)%nat ->
    Exists bad r \/ Exists bad a ->
    length (fst (add_rows groups r a)) = 8%nat /\
    (Exists bad (fst (add_rows groups r a)) \/
     Exists bad (snd (add_rows groups r a))).
Proof.
  induction groups as [|g IH]; intros r a Hr Ha H; cbn [add_rows].
  - split; [exact Hr | exact H].
  - assert (Hf : length (firstn 8 a) = 8%nat) by (rewrite length_firstn; lia).
    apply IH.
    + rewrite zip_with_length; congruence.
    + rewrite length_skipn. lia.
    + destruct H as [H|H].
      * left. apply zip_add_bad; [congruence | left; exact H].
      * destruct (Exists_firstn_skipn 8 a H) as [H1|H2].
        -- left. apply zip_add_bad; [congruence | right; exact H1].
        -- right. exact H2.
Qed.

Lemma sum_block_bad (a : list float) :
  (8 <= length a)%nat -> Exists bad a -> bad (sum_block a).
Proof.
  intros Hn H. unfold sum_block.
  destruct (add_rows_bad (length a / 8 - 1) (firstn 8 a) (skipn 8 a))
    as [Hl Hb].
  - rewrite length_firstn. lia.
  - rewrite length_skipn.
    pose proof (Nat.Div0.mul_div_le (length a) 8). lia.
  - apply Exists_firstn_skipn, H.
  - destruct (add_rows (length a / 8 - 1) (firstn 8 a) (skipn 8 a))
      as [r rest].
    simpl in Hl, Hb.
    destruct Hb as [Hb|Hb]; [|apply fold_bad, Hb].
    apply fold_bad_acc.
    destruct r as [|r0 [|r1 [|r2 [|r3 [|r4 [|r5 [|r6 [|r7 [|]]]]]]]]];
      try discriminate.
    cbn [nth].
    apply Exists_exists in Hb. destruct Hb as (x & Hin & Hx).
    simpl in Hin.
    destruct Hin as [<-|[<-|[<-|[<-|[<-|[<-|[<-|[<-|[]]]]]]]]];
      auto 6 using bad_add_l, bad_add_r.
Qed.

Lemma pairwise_sum_bad (fuel : nat) :
  forall a, Exists bad a -> bad (pairwise_sum fuel a).
Proof.
  induction fuel as [|f IH]; intros a H; cbn [pairwise_sum];
    destruct (length a <? 8)%nat eqn:E8;
    try (apply fold_bad, H);
    apply Nat.ltb_ge in E8;
    destruct (length a <=? 128)%nat;
    try (apply sum_block_bad; assumption).
  destruct (Exists_firstn_skipn
              (length a / 2 - (length a / 2) mod 8) a H) as [H1|H2].
  - apply bad_add_l, IH, H1.
  - apply bad_add_r, IH, H2.
Qed.

Lemma np_sum_bad (a : list float) : Exists bad a -> bad (np_sum a).
Proof.
  intros H. destruct a as [|x a]; [inversion H|].
  unfold np_sum. apply bad_add_r, pairwise_sum_bad, H.
Qed.

End Absorbing.

(** The length of the array is fuel enough: more fuel changes nothing. *)
Lemma pairwise_sum_fuel (f1 : nat) :
  forall f2 a,
    (length a <= f1)%nat -> (length a <= f2)%nat ->
    pairwise_sum f1 a = pairwise_sum f2 a.
Proof.
  induction f1 as [|f1 IH]; intros f2 a H1 H2.
  - destruct a; [|simpl in H1; lia]. destruct f2; reflexivity.
  - destruct f2 as [|f2].
    + destruct a; [|simpl in H2; lia]. reflexivity.
    + cbn [pairwise_sum].
      destruct (length a <? 8)%nat eqn:E8; [reflexivity|].
      destruct (length a <=? 128)%nat eqn:E128; [reflexivity|].
      apply Nat.ltb_ge in E8. apply Nat.leb_gt in E128.
      pose proof (Nat.div_mod_eq (length a) 2) as Hd.
      pose proof (Nat.mod_upper_bound (length a) 2) as Hm2.
      pose proof (Nat.mod_upper_bound (length a / 2) 8) as Hm8.
      f_equal; apply IH; rewrite ?length_firstn, ?length_skipn; lia.
Qed.

(** Eight items are added in eight interleaved partial sums, not one after
    the other: the mean of [[1e16, 1, -1e16, 1, 0, 0, 0, 0]] is [0.0], where
    adding in index order would give [0.125]. *)
Lemma np_mean_interleaved :
  np_mean [F64.of_Z (10 ^ 16); F64.of_Z 1; F64.of_Z (- 10 ^ 16); F64.of_Z 1;
           F64.zero; F64.zero; F64.zero; F64.zero] = F64.zero /\
  F64.div (fold_left F64.add
             [F64.of_Z (10 ^ 16); F64.of_Z 1; F64.of_Z (- 10 ^ 16); F64.of_Z 1;
              F64.zero; F64.zero; F64.zero; F64.zero] F64.zero)
          (F64.of_Z 8) = F64.lit 125 1000.
Proof. split; vm_compute; reflexivity. Qed.



Lemma calculate_mean_temperature_eq (T_b : simulation) (r h m b : float) (st : store) :
  calculate_mean_temperature T_b r h m b st
  = (observable T_b (mkParams h m b) r, record_call (mkCall 50 r h m b) st).
Proof.
  unfold calculate_mean_temperature, observable, call_result, the_call, bind, modify.
  simpl. destruct (T_b 50 r h m b); reflexivity.
Qed.

End Mean.

(** ** Dicts and stores *)

Section Stores.

Lemma dict_get_set (k : float) (v : pyseq) (d : dict) :
  dict_get k (dict_set k v d) = Some v.
Proof.
  induction d as [|[k' v'] d IH]; simpl.
  - rewrite key_eqb_refl. reflexivity.
  - destruct (key_eqb k' k) eqn:E; simpl; rewrite E; [reflexivity | exact IH].
Qed.

Lemma dict_set_set (k : float) (v1 v2 : pyseq) (d : dict) :
  dict_set k v2 (dict_set k v1 d) = dict_set k v2 d.
Proof.
  induction d as [|[k' v'] d IH]; simpl.
  - rewrite key_eqb_refl. reflexivity.
  - destruct (key_eqb k' k) eqn:E; simpl; rewrite E; [reflexivity|].
    rewrite IH. reflexivity.
Qed.

Lemma dict_set_same (k : float) (v : pyseq) (d : dict) :
  dict_get k d = Some v -> dict_set k v d = d.
Proof.
  induction d as [|[k' v'] d IH]; simpl; [discriminate|].
  destruct (key_eqb k' k) eqn:E; intros H.
  - congruence.
  - rewrite (IH H). reflexivity.
Qed.

Lemma params_eta (p : params) : mkParams (hubble p) (matter p) (baryon p) = p.
Proof. destruct p; reflexivity. Qed.

Lemma axis_dict_set (a : axis) (d : dict) (st : store) :
  axis_dict a (set_axis_dict a d st) = Some d.
Proof. destruct a; reflexivity. Qed.

Lemma axis_dict_record_call (a : axis) (c : call) (st : store) :
  axis_dict a (record_call c st) = axis_dict a st.
Proof. destruct a; reflexivity. Qed.

Lemma set_axis_dict_same (a : axis) (d : dict) (st : store) :
  axis_dict a st = Some d -> set_axis_dict a d st = st.
Proof. destruct a, st; simpl; intros ->; reflexivity. Qed.

Lemma set_axis_dict_twice (a : axis) (d1 d2 : dict) (st : store) :
  set_axis_dict a d2 (set_axis_dict a d1 st) = set_axis_dict a d2 st.
Proof. destruct a; reflexivity. Qed.

Lemma set_axis_dict_add_calls (a : axis) (d : dict) (cs : list call) (st : store) :
  add_calls cs (set_axis_dict a d st) = set_axis_dict a d (add_calls cs st).
Proof. destruct a; reflexivity. Qed.

Lemma add_calls_nil (st : store) : add_calls [] st = st.
Proof. destruct st; unfold add_calls; simpl. rewrite app_nil_r. reflexivity. Qed.

Lemma add_calls_app (cs1 cs2 : list call) (st : store) :
  add_calls cs2 (add_calls cs1 st) = add_calls (cs1 ++ cs2) st.
Proof. unfold add_calls; simpl. rewrite app_assoc. reflexivity. Qed.

Lemma record_call_add_calls (c : call) (st : store) :
  record_call c st = add_calls [c] st.
Proof. reflexivity. Qed.

Lemma set_Tb_std_twice (v1 v2 : pyseq) (st : store) :
  set_Tb_std v2 (set_Tb_std v1 st) = set_Tb_std v2 st.
Proof. reflexivity. Qed.

Lemma set_Tb_std_add_calls (v : pyseq) (cs : list call) (st : store) :
  add_calls cs (set_Tb_std v st) = set_Tb_std v (add_calls cs st).
Proof. reflexivity. Qed.

Lemma set_Tb_std_same (v : pyseq) (st : store) :
  Tb_std st = Some v -> set_Tb_std v st = st.
Proof. destruct st; simpl; intros ->; reflexivity. Qed.

End Stores.

(** ** The loops compute the reference semantics *)

Section Loops.

Variable T_b : simulation.
Variable cfg : config.

Lemma bind_ok {A B : Type} (m : M A) (k : A -> M B) (st st' : store) (a : A) :
  m st = (Ok a, st') -> bind m k st = k a st'.
Proof. intros H. unfold bind. rewrite H. reflexivity. Qed.

Lemma bind_raise {A B : Type} (m : M A) (k : A -> M B) (st st' : store) (e : pyexn) :
  m st = (Raise e, st') -> bind m k st = (Raise e, st').
Proof. intros H. unfold bind. rewrite H. reflexivity. Qed.

Lemma append_standard_eq (r : float) (acc : list float) (st : store) :
  Tb_std st = Some (PyList acc) ->
  append_standard T_b cfg r st
  = match observable T_b (std_params cfg) r with
    | Raise e => (Raise e, add_calls [the_call (std_params cfg) r] st)
    | Ok v => (Ok tt, set_Tb_std (PyList (acc ++ [v]))
                        (add_calls [the_call (std_params cfg) r] st))
    end.
Proof.
  intros H. unfold append_standard.
  rewrite (bind_ok _ _ st st st) by reflexivity.
  rewrite H. rewrite (bind_ok _ _ st st acc) by reflexivity.
  unfold bind at 1. rewrite calculate_mean_temperature_eq, params_eta.
  destruct (observable T_b (std_params cfg) r) as [v|e]; [|reflexivity].
  unfold bind, get, modify, as_list, ret. simpl. rewrite H. reflexivity.
Qed.

Lemma standard_loop_eq (g : list float) :
  forall (acc : list float) (st : store),
    Tb_std st = Some (PyList acc) ->
    for_each g (append_standard T_b cfg) st
    = match run_grid T_b (std_params cfg) g with
      | (vs, cs, e) =>
          (result_of e, set_Tb_std (PyList (acc ++ vs)) (add_calls cs st))
      end.
Proof.
  induction g as [|r g IH]; intros acc st H; simpl.
  - rewrite app_nil_r, add_calls_nil, (set_Tb_std_same _ _ H). reflexivity.
  - unfold bind at 1. rewrite (append_standard_eq r acc st H).
    destruct (observable T_b (std_params cfg) r) as [v|e].
    + rewrite (IH (acc ++ [v])) by reflexivity.
      destruct (run_grid T_b (std_params cfg) g) as [[vs cs] e].
      rewrite set_Tb_std_add_calls, set_Tb_std_twice, add_calls_app.
      rewrite <- app_assoc. reflexivity.
    + simpl. rewrite app_nil_r.
      rewrite set_Tb_std_same; [reflexivity | exact H].
Qed.

(** The standard model, in one equation. *)
Lemma standard_model_eq (st : store) :
  standard_model T_b cfg st
  = match run_grid T_b (std_params cfg) (z cfg) with
    | (vs, cs, None) => (Ok tt, set_Tb_std (NdArray vs) (add_calls cs st))
    | (vs, cs, Some e) => (Raise e, set_Tb_std (PyList vs) (add_calls cs st))
    end.
Proof.
  unfold standard_model.
  rewrite (bind_ok _ _ st (set_Tb_std (PyList []) st) tt) by reflexivity.
  unfold bind at 1.
  rewrite (standard_loop_eq (z cfg) [] (set_Tb_std (PyList []) st) eq_refl).
  destruct (run_grid T_b (std_params cfg) (z cfg)) as [[vs cs] [e|]]; simpl.
  - reflexivity.
  - reflexivity.
Qed.

Lemma axis_observable_eq (a : axis) (x r : float) (st : store) :
  axis_observable T_b cfg a x r st
  = (observable T_b (axis_params cfg a x) r,
     add_calls [the_call (axis_params cfg a x) r] st).
Proof.
  destruct a; unfold axis_observable;
    rewrite calculate_mean_temperature_eq; reflexivity.
Qed.

Lemma getitem_eq (a : axis) (x : float) (d : dict) (s : pyseq) (st : store) :
  axis_dict a st = Some d -> dict_get x d = Some s ->
  getitem a x st = (Ok s, st).
Proof.
  intros Hd Hs. unfold getitem, bind, get. rewrite Hd, Hs. reflexivity.
Qed.

Lemma setitem_eq (a : axis) (x : float) (v : pyseq) (d : dict) (st : store) :
  axis_dict a st = Some d ->
  setitem a x v st = (Ok tt, set_axis_dict a (dict_set x v d) st).
Proof.
  intros Hd. unfold setitem, bind, get. rewrite Hd. reflexivity.
Qed.

Lemma append_axis_eq (a : axis) (x r : float) (acc : list float) (d : dict)
      (st : store) :
  axis_dict a st = Some d -> dict_get x d = Some (PyList acc) ->
  append_axis T_b cfg a x r st
  = match observable T_b (axis_params cfg a x) r with
    | Raise e => (Raise e, add_calls [the_call (axis_params cfg a x) r] st)
    | Ok v => (Ok tt, set_axis_dict a (dict_set x (PyList (acc ++ [v])) d)
                        (add_calls [the_call (axis_params cfg a x) r] st))
    end.
Proof.
  intros Hd Hs. unfold append_axis.
  rewrite (bind_ok _ _ _ _ _ (getitem_eq a x d _ st Hd Hs)).
  rewrite (bind_ok _ _ st st acc) by reflexivity.
  unfold bind at 1. rewrite axis_observable_eq.
  destruct (observable T_b (axis_params cfg a x) r) as [v|e]; [|reflexivity].
  assert (Hd' : axis_dict a (add_calls [the_call (axis_params cfg a x) r] st)
                = Some d) by (destruct a; exact Hd).
  rewrite (bind_ok _ _ _ _ _ (getitem_eq a x d _ _ Hd' Hs)).
  rewrite (bind_ok _ _ _ _ acc) by reflexivity.
  apply setitem_eq, Hd'.
Qed.

Lemma axis_loop_eq (a : axis) (x : float) (g : list float) :
  forall (acc : list float) (d : dict) (st : store),
    axis_dict a st = Some d -> dict_get x d = Some (PyList acc) ->
    for_each g (append_axis T_b cfg a x) st
    = match run_grid T_b (axis_params cfg a x) g with
      | (vs, cs, e) =>
          (result_of e,
           set_axis_dict a (dict_set x (PyList (acc ++ vs)) d) (add_calls cs st))
      end.
Proof.
  induction g as [|r g IH]; intros acc d st Hd Hs; simpl.
  - rewrite app_nil_r, add_calls_nil, (dict_set_same _ _ _ Hs),
      (set_axis_dict_same _ _ _ Hd). reflexivity.
  - unfold bind at 1. rewrite (append_axis_eq a x r acc d st Hd Hs).
    destruct (observable T_b (axis_params cfg a x) r) as [v|e].
    + rewrite (IH (acc ++ [v]) (dict_set x (PyList (acc ++ [v])) d));
        [ | apply axis_dict_set | apply dict_get_set ].
      destruct (run_grid T_b (axis_params cfg a x) g) as [[vs cs] e].
      rewrite dict_set_set, set_axis_dict_add_calls, set_axis_dict_twice,
        add_calls_app, <- app_assoc.
      reflexivity.
    + simpl. rewrite app_nil_r, (dict_set_same _ _ _ Hs).
      rewrite set_axis_dict_same; [reflexivity|].
      destruct a; exact Hd.
Qed.

Lemma sweep_value_eq (a : axis) (x : float) (d : dict) (st : store) :
  axis_dict a st = Some d ->
  sweep_value T_b cfg a x st
  = match run_grid T_b (axis_params cfg a x) (z cfg) with
    | (vs, cs, None) =>
        (Ok tt, set_axis_dict a (dict_set x (NdArray vs) d) (add_calls cs st))
    | (vs, cs, Some e) =>
        (Raise e, set_axis_dict a (dict_set x (PyList vs) d) (add_calls cs st))
    end.
Proof.
  intros Hd. unfold sweep_value.
  rewrite (bind_ok _ _ _ _ _ (setitem_eq a x (PyList []) d st Hd)).
  unfold bind at 1.
  rewrite (axis_loop_eq a x (z cfg) [] (dict_set x (PyList []) d));
    [ | apply axis_dict_set | apply dict_get_set ].
  destruct (run_grid T_b (axis_params cfg a x) (z cfg)) as [[vs cs] [e|]];
    simpl; rewrite dict_set_set, set_axis_dict_add_calls, set_axis_dict_twice.
  - reflexivity.
  - erewrite bind_ok;
      [ | apply getitem_eq with (d := dict_set x (PyList vs) d);
          [ apply axis_dict_set | apply dict_get_set ] ].
    erewrite setitem_eq by apply axis_dict_set.
    rewrite dict_set_set, set_axis_dict_twice. reflexivity.
Qed.

Lemma axis_values_loop_eq (a : axis) (xs : list float) :
  forall (d : dict) (st : store),
    axis_dict a st = Some d ->
    for_each xs (sweep_value T_b cfg a) st
    = match run_axis T_b cfg a xs d with
      | (d', cs, e) => (result_of e, set_axis_dict a d' (add_calls cs st))
      end.
Proof.
  induction xs as [|x xs IH]; intros d st Hd; simpl.
  - rewrite add_calls_nil, (set_axis_dict_same _ _ _ Hd). reflexivity.
  - unfold bind at 1. rewrite (sweep_value_eq a x d st Hd).
    destruct (run_grid T_b (axis_params cfg a x) (z cfg)) as [[vs cs] [e|]].
    + reflexivity.
    + rewrite (IH (dict_set x (NdArray vs) d)) by apply axis_dict_set.
      destruct (run_axis T_b cfg a xs (dict_set x (NdArray vs) d))
        as [[d' cs'] e].
      rewrite set_axis_dict_add_calls, set_axis_dict_twice, add_calls_app.
      reflexivity.
Qed.

(** The sweep of an axis, in one equation. *)
Lemma axis_sweep_eq (a : axis) (st : store) :
  axis_sweep T_b cfg a st
  = match run_axis T_b cfg a (axis_values cfg a) [] with
    | (d, cs, e) => (result_of e, set_axis_dict a d (add_calls cs st))
    end.
Proof.
  unfold axis_sweep.
  rewrite (bind_ok _ _ st (set_axis_dict a [] st) tt) by reflexivity.
  rewrite (axis_values_loop_eq a _ [] _ (axis_dict_set a [] st)).
  destruct (run_axis T_b cfg a (axis_values cfg a) []) as [[d cs] e].
  rewrite set_axis_dict_add_calls, set_axis_dict_twice. reflexivity.
Qed.

End Loops.

(** ** Properties of the reference semantics *)

Section ReferenceFacts.

Variable T_b : simulation.
Variable cfg : config.

Lemma observable_ok_inv (p : params) (r v : float) :
  observable T_b p r = Ok v ->
  exists bt, call_result T_b (the_call p r) = Ok bt /\
             v = np_mean (brightness_temp bt).
Proof.
  unfold observable. destruct (call_result T_b (the_call p r)) as [bt|e];
    [|discriminate].
  intros H. injection H as <-. exists bt. split; reflexivity.
Qed.

Lemma observable_raise_inv (p : params) (r : float) (e : pyexn) :
  observable T_b p r = Raise e -> call_result T_b (the_call p r) = Raise e.
Proof.
  unfold observable. destruct (call_result T_b (the_call p r)) as [bt|e'];
    [discriminate|].
  intros H. injection H as <-. reflexivity.
Qed.

(** The shape of every result of [run_grid]. *)
Lemma run_grid_inv (p : params) (g : list float) :
  forall vs cs e,
    run_grid T_b p g = (vs, cs, e) ->
    exists g1 rest,
      g = g1 ++ rest /\
      Forall2 (fun r v => observable T_b p r = Ok v) g1 vs /\
      match e with
      | None => rest = [] /\ cs = map (the_call p) g1
      | Some ex =>
          exists r g2, rest = r :: g2 /\ observable T_b p r = Raise ex /\
                       cs = map (the_call p) g1 ++ [the_call p r]
      end.
Proof.
  induction g as [|r g IH]; intros vs cs e H; simpl in H.
  - injection H as <- <- <-. exists [], []. repeat split. constructor.
  - destruct (observable T_b p r) as [v|ex] eqn:Ho.
    + destruct (run_grid T_b p g) as [[vs' cs'] e'] eqn:Hg.
      injection H as <- <- <-.
      destruct (IH _ _ _ eq_refl) as (g1 & rest & -> & HF & He).
      exists (r :: g1), rest. split; [reflexivity|].
      split; [constructor; assumption|].
      destruct e' as [ex|].
      * destruct He as (r' & g2 & -> & Hr & ->).
        exists r', g2. repeat split; assumption.
      * destruct He as [-> ->]. split; reflexivity.
    + injection H as <- <- <-. exists [], (r :: g).
      split; [reflexivity|]. split; [constructor|].
      exists r, g. repeat split. exact Ho.
Qed.

Lemma run_grid_length (p : params) (g : list float) vs cs e :
  run_grid T_b p g = (vs, cs, e) ->
  match e with
  | None => length vs = length g
  | Some _ => (length vs < length g)%nat
  end.
Proof.
  intros H. destruct (run_grid_inv p g _ _ _ H) as (g1 & rest & -> & HF & He).
  apply Forall2_length in HF. rewrite length_app, <- HF.
  destruct e as [ex|].
  - destruct He as (r & g2 & -> & _). simpl. lia.
  - destruct He as [-> _]. simpl. lia.
Qed.

Lemma run_grid_calls (p : params) (g : list float) vs cs e :
  run_grid T_b p g = (vs, cs, e) ->
  Forall (fun c => exists r, In r g /\ c = the_call p r) cs.
Proof.
  intros H. destruct (run_grid_inv p g _ _ _ H) as (g1 & rest & -> & _ & He).
  assert (H1 : Forall (fun c => exists r, In r (g1 ++ rest) /\ c = the_call p r)
                 (map (the_call p) g1)).
  { apply Forall_forall. intros c Hc. apply in_map_iff in Hc.
    destruct Hc as (r & <- & Hr). exists r. split; [|reflexivity].
    apply in_or_app. left. exact Hr. }
  destruct e as [ex|].
  - destruct He as (r & g2 & -> & _ & ->).
    apply Forall_app. split; [exact H1|]. constructor; [|constructor].
    exists r. split; [|reflexivity]. apply in_or_app. right. left. reflexivity.
  - destruct He as [_ ->]. exact H1.
Qed.

Lemma run_grid_trace (p : params) (g : list float) vs cs e :
  run_grid T_b p g = (vs, cs, e) -> trace_ok T_b cs e.
Proof.
  intros H. destruct (run_grid_inv p g _ _ _ H) as (g1 & rest & -> & HF & He).
  assert (H1 : Forall (succeeds T_b) (map (the_call p) g1)).
  { clear He H. induction HF as [|r v g1 vs Hv _ IH]; simpl; constructor.
    - destruct (observable_ok_inv _ _ _ Hv) as (bt & Hbt & _).
      exists bt. exact Hbt.
    - exact IH. }
  destruct e as [ex|]; simpl.
  - destruct He as (r & g2 & -> & Hr & ->).
    exists (map (the_call p) g1), (the_call p r).
    repeat split; [exact H1|]. apply observable_raise_inv, Hr.
  - destruct He as [_ ->]. exact H1.
Qed.

(** When every redshift of the grid can be simulated, the pass returns the
    observables of the whole grid, in grid order. *)
Lemma run_grid_total (p : params) (g : list float) :
  (forall r, In r g -> succeeds T_b (the_call p r)) ->
  exists vs, run_grid T_b p g = (vs, map (the_call p) g, None) /\
             Forall2 (fun r v => observable T_b p r = Ok v) g vs.
Proof.
  intros Hs. destruct (run_grid T_b p g) as [[vs cs] e] eqn:H.
  destruct (run_grid_inv p g _ _ _ H) as (g1 & rest & -> & HF & He).
  destruct e as [ex|].
  - destruct He as (r & g2 & -> & Hr & _). exfalso.
    destruct (Hs r) as [bt Hbt].
    + apply in_or_app. right. left. reflexivity.
    + apply observable_raise_inv in Hr. congruence.
  - destruct He as [-> ->]. rewrite app_nil_r in *.
    exists vs. split; [reflexivity | exact HF].
Qed.

Lemma trace_ok_app (cs1 cs2 : list call) (e : option pyexn) :
  trace_ok T_b cs1 None -> trace_ok T_b cs2 e -> trace_ok T_b (cs1 ++ cs2) e.
Proof.
  intros H1 H2. destruct e as [ex|]; simpl in *.
  - destruct H2 as (pre & c & -> & Hp & Hc).
    exists (cs1 ++ pre), c. rewrite app_assoc. repeat split.
    + apply Forall_app. split; assumption.
    + exact Hc.
  - apply Forall_app. split; assumption.
Qed.

(** A failed call of a trace is its last call, and its exception is the one
    that ended the trace. *)
Lemma trace_ok_failed (cs : list call) (eo : option pyexn) (c : call) (e : pyexn) :
  trace_ok T_b cs eo -> In c cs -> call_result T_b c = Raise e ->
  eo = Some e /\ exists pre, cs = pre ++ [c].
Proof.
  intros Ht Hin Hf.
  assert (Hno : forall l, Forall (succeeds T_b) l -> In c l -> False).
  { intros l Hl Hc. rewrite Forall_forall in Hl.
    destruct (Hl c Hc) as [bt Hbt]. congruence. }
  destruct eo as [ex|]; simpl in Ht.
  - destruct Ht as (pre & c' & -> & Hp & Hc').
    apply in_app_or in Hin. destruct Hin as [Hin|[<-|[]]].
    + exfalso. exact (Hno _ Hp Hin).
    + split; [congruence|]. exists pre. reflexivity.
  - exfalso. exact (Hno _ Ht Hin).
Qed.

Lemma run_axis_trace (a : axis) (xs : list float) :
  forall d d' cs e, run_axis T_b cfg a xs d = (d', cs, e) -> trace_ok T_b cs e.
Proof.
  induction xs as [|x xs IH]; intros d d' cs e H; simpl in H.
  - injection H as <- <- <-. constructor.
  - destruct (run_grid T_b (axis_params cfg a x) (z cfg)) as [[vs cs1] [ex|]] eqn:Hg.
    + injection H as <- <- <-. exact (run_grid_trace _ _ _ _ _ Hg).
    + destruct (run_axis T_b cfg a xs (dict_set x (NdArray vs) d))
        as [[d2 cs2] e2] eqn:Ha.
      injection H as <- <- <-.
      apply trace_ok_app.
      * exact (run_grid_trace _ _ _ _ _ Hg).
      * exact (IH _ _ _ _ Ha).
Qed.

Lemma run_axis_calls (a : axis) (xs : list float) :
  forall d d' cs e,
    run_axis T_b cfg a xs d = (d', cs, e) ->
    Forall (fun c => exists x r, In x xs /\ In r (z cfg) /\
                                 c = the_call (axis_params cfg a x) r) cs.
Proof.
  induction xs as [|x xs IH]; intros d d' cs e H; simpl in H.
  - injection H as <- <- <-. constructor.
  - assert (Hx : forall cs1 vs e1,
               run_grid T_b (axis_params cfg a x) (z cfg) = (vs, cs1, e1) ->
               Forall (fun c => exists x0 r, In x0 (x :: xs) /\ In r (z cfg) /\
                                  c = the_call (axis_params cfg a x0) r) cs1).
    { intros cs1 vs e1 Hg. apply run_grid_calls in Hg.
      eapply Forall_impl; [|exact Hg].
      intros c (r & Hr & ->). exists x, r. repeat split; [left; reflexivity | exact Hr]. }
    destruct (run_grid T_b (axis_params cfg a x) (z cfg)) as [[vs cs1] [ex|]] eqn:Hg.
    + injection H as <- <- <-. exact (Hx _ _ _ eq_refl).
    + destruct (run_axis T_b cfg a xs (dict_set x (NdArray vs) d))
        as [[d2 cs2] e2] eqn:Ha.
      injection H as <- <- <-.
      apply Forall_app. split; [exact (Hx _ _ _ eq_refl)|].
      eapply Forall_impl; [|exact (IH _ _ _ _ Ha)].
      intros c (x0 & r & Hx0 & Hr & ->). exists x0, r.
      repeat split; [right; exact Hx0 | exact Hr].
Qed.

(** A pass over an axis that failed leaves, under the value being swept, the
    Python list of the observables obtained before the failing call. *)
Lemma run_axis_failure (a : axis) (xs : list float) :
  forall d d' cs e,
    run_axis T_b cfg a xs d = (d', cs, Some e) ->
    exists x r vs pre,
      In x xs /\ cs = pre ++ [the_call (axis_params cfg a x) r] /\
      dict_get x d' = Some (PyList vs) /\ (length vs < length (z cfg))%nat.
Proof.
  induction xs as [|x xs IH]; intros d d' cs e H; simpl in H.
  - discriminate.
  - destruct (run_grid T_b (axis_params cfg a x) (z cfg)) as [[vs cs1] [ex|]] eqn:Hg.
    + injection H as <- <- <-.
      pose proof (run_grid_length _ _ _ _ _ Hg) as Hl. simpl in Hl.
      destruct (run_grid_inv _ _ _ _ _ Hg) as (g1 & rest & _ & _ & He).
      destruct He as (r & g2 & _ & _ & ->).
      exists x, r, vs, (map (the_call (axis_params cfg a x)) g1).
      repeat split; [left; reflexivity | apply dict_get_set | exact Hl].
    + destruct (run_axis T_b cfg a xs (dict_set x (NdArray vs) d))
        as [[d2 cs2] e2] eqn:Ha.
      injection H as <- <- ->.
      destruct (IH _ _ _ _ Ha) as (x0 & r & vs0 & pre & Hx0 & -> & Hget & Hl).
      exists x0, r, vs0, (cs1 ++ pre). rewrite app_assoc.
      repeat split; [right; exact Hx0 | exact Hget | exact Hl].
Qed.

End ReferenceFacts.

(** ** The whole script *)

Section ScriptFacts.

Variable T_b : simulation.
Variable cfg : config.

Lemma standard_model_run (st : store) :
  run_ok T_b cfg (T_b_calls st) (standard_model T_b cfg st).
Proof.
  rewrite standard_model_eq.
  destruct (run_grid T_b (std_params cfg) (z cfg)) as [[vs cs] e] eqn:Hg.
  pose proof (run_grid_trace _ _ _ _ _ _ Hg) as Ht.
  pose proof (run_grid_length _ _ _ _ _ _ Hg) as Hl.
  destruct e as [ex|]; exists cs; simpl; (split; [reflexivity|]);
    (split; [exact Ht|]); intros e He; [|discriminate].
  destruct Ht as (pre & c & -> & _). exists pre, c. split; [reflexivity|].
  left. exists vs. split; [reflexivity | exact Hl].
Qed.

Lemma axis_sweep_run (a : axis) (st : store) :
  run_ok T_b cfg (T_b_calls st) (axis_sweep T_b cfg a st).
Proof.
  rewrite axis_sweep_eq.
  destruct (run_axis T_b cfg a (axis_values cfg a) []) as [[d cs] e] eqn:Ha.
  pose proof (run_axis_trace _ _ _ _ _ _ _ _ Ha) as Ht.
  assert (Hc : T_b_calls (set_axis_dict a d (add_calls cs st))
               = T_b_calls st ++ cs) by (destruct a; reflexivity).
  exists cs. simpl. split; [exact Hc|].
  destruct e as [ex|]; simpl; (split; [exact Ht|]); intros e He;
    [|discriminate].
  destruct (run_axis_failure _ _ _ _ _ _ _ _ Ha)
    as (x & r & vs & pre & _ & -> & Hget & Hl).
  exists pre, (the_call (axis_params cfg a x) r). split; [reflexivity|].
  right. exists a, d, vs. rewrite axis_dict_set.
  repeat split; [|exact Hl].
  destruct a; exact Hget.
Qed.

(** Sequencing: a failure of the first part is the failure of the whole. *)
Lemma run_ok_bind (m : M unit) (k : unit -> M unit) (st : store) :
  run_ok T_b cfg (T_b_calls st) (m st) ->
  (forall st', run_ok T_b cfg (T_b_calls st') (k tt st')) ->
  run_ok T_b cfg (T_b_calls st) (bind m k st).
Proof.
  intros Hm Hk. unfold bind.
  destruct (m st) as [[[]|e] st1] eqn:E; [|exact Hm].
  destruct Hm as (cs1 & Hc1 & Ht1 & _). simpl in *.
  destruct (Hk st1) as (cs2 & Hc2 & Ht2 & Hp2).
  exists (cs1 ++ cs2). split; [rewrite Hc2, Hc1, app_assoc; reflexivity|].
  split; [apply trace_ok_app; assumption|].
  intros e He. destruct (Hp2 e He) as (pre & c & -> & Hp).
  exists (cs1 ++ pre), c. rewrite app_assoc. split; [reflexivity | exact Hp].
Qed.

Lemma script_run (st : store) : run_ok T_b cfg (T_b_calls st) (script T_b cfg st).
Proof.
  unfold script.
  apply run_ok_bind; [apply standard_model_run | intros st1].
  apply run_ok_bind; [apply axis_sweep_run | intros st2].
  apply run_ok_bind; [apply axis_sweep_run | intros st3].
  apply axis_sweep_run.
Qed.

(** The script, in one equation. *)
Lemma script_eq (st : store) :
  script T_b cfg st
  = match run_grid T_b (std_params cfg) (z cfg) with
    | (vs, cs, Some e) => (Raise e, set_Tb_std (PyList vs) (add_calls cs st))
    | (vs, cs, None) =>
        match run_axis T_b cfg Hubble (hubble_variations cfg) [] with
        | (dh, ch, Some e) =>
            (Raise e,
             set_axis_dict Hubble dh (add_calls ch
               (set_Tb_std (NdArray vs) (add_calls cs st))))
        | (dh, ch, None) =>
            match run_axis T_b cfg Matter (matter_variations cfg) [] with
            | (dm, cm, Some e) =>
                (Raise e,
                 set_axis_dict Matter dm (add_calls cm
                   (set_axis_dict Hubble dh (add_calls ch
                     (set_Tb_std (NdArray vs) (add_calls cs st))))))
            | (dm, cm, None) =>
                match run_axis T_b cfg Baryon (baryon_variations cfg) [] with
                | (db, cb, e) =>
                    (result_of e,
                     set_axis_dict Baryon db (add_calls cb
                       (set_axis_dict Matter dm (add_calls cm
                         (set_axis_dict Hubble dh (add_calls ch
                           (set_Tb_std (NdArray vs) (add_calls cs st))))))))
                end
            end
        end
    end.
Proof.
  unfold script. unfold bind at 1. rewrite standard_model_eq.
  destruct (run_grid T_b (std_params cfg) (z cfg)) as [[vs cs] [e|]];
    [reflexivity|].
  unfold bind at 1. rewrite axis_sweep_eq. simpl axis_values.
  destruct (run_axis T_b cfg Hubble (hubble_variations cfg) []) as [[dh ch] [e|]];
    [reflexivity|].
  unfold bind at 1. rewrite axis_sweep_eq. simpl axis_values.
  destruct (run_axis T_b cfg Matter (matter_variations cfg) []) as [[dm cm] [e|]];
    [reflexivity|].
  simpl result_of. cbv iota beta.
  rewrite axis_sweep_eq. reflexivity.
Qed.

End ScriptFacts.

(** ** Dicts filled with distinct keys *)

Section DistinctKeys.

Lemma dict_set_fresh (k : float) (v : pyseq) (d : dict) :
  (forall k', In k' (dict_keys d) -> key_eqb k' k = false) ->
  dict_set k v d = d ++ [(k, v)].
Proof.
  induction d as [|[k' v'] d IH]; intros H; simpl; [reflexivity|].
  rewrite (H k') by (left; reflexivity).
  rewrite IH; [reflexivity|].
  intros k0 Hk0. apply H. right. exact Hk0.
Qed.

Lemma distinct_keys_head (x y : float) (xs : list float) :
  distinct_keys (x :: xs) = true -> In y xs -> key_eqb x y = false.
Proof.
  simpl. intros H Hy. apply andb_prop in H. destruct H as [H _].
  rewrite forallb_forall in H. apply negb_true_iff, H, Hy.
Qed.

Lemma distinct_keys_tail (x : float) (xs : list float) :
  distinct_keys (x :: xs) = true -> distinct_keys xs = true.
Proof. simpl. intros H. apply andb_prop in H. apply H. Qed.

Lemma dict_get_map_distinct (f : float -> pyseq) (xs : list float) (x0 : float) :
  distinct_keys xs = true -> In x0 xs ->
  dict_get x0 (map (fun x => (x, f x)) xs) = Some (f x0).
Proof.
  induction xs as [|x xs IH]; intros Hd Hin; [destruct Hin|].
  simpl. destruct Hin as [->|Hin].
  - rewrite key_eqb_refl. reflexivity.
  - rewrite (distinct_keys_head _ _ _ Hd Hin).
    apply IH; [exact (distinct_keys_tail _ _ Hd) | exact Hin].
Qed.


Variable T_b : simulation.
Variable cfg : config.

Lemma run_axis_distinct (a : axis) (xs : list float) :
  forall d d' cs,
    run_axis T_b cfg a xs d = (d', cs, None) ->
    distinct_keys xs = true ->
    (forall k y, In k (dict_keys d) -> In y xs -> key_eqb k y = false) ->
    d' = d ++ map (fun x => (x, axis_series T_b cfg a x)) xs /\
    (forall x, In x xs ->
       snd (run_grid T_b (axis_params cfg a x) (z cfg)) = None).
Proof.
  induction xs as [|x xs IH]; intros d d' cs H Hd Hk; simpl in H.
  - injection H as <- _. rewrite app_nil_r. split; [reflexivity|].
    intros x [].
  - destruct (run_grid T_b (axis_params cfg a x) (z cfg)) as [[vs cs1] [ex|]] eqn:Hg;
      [discriminate|].
    destruct (run_axis T_b cfg a xs (dict_set x (NdArray vs) d))
      as [[d2 cs2] e2] eqn:Ha.
    injection H as <- _ ->.
    rewrite dict_set_fresh in Ha
      by (intros k' Hk'; apply (Hk k' x Hk'); left; reflexivity).
    destruct (IH _ _ _ Ha (distinct_keys_tail _ _ Hd)) as [-> Hs].
    + intros k y Hin Hy. unfold dict_keys in Hin.
      rewrite map_app in Hin. apply in_app_or in Hin.
      destruct Hin as [Hin|[<-|[]]].
      * apply (Hk k y Hin). right. exact Hy.
      * simpl. exact (distinct_keys_head _ _ _ Hd Hy).
    + split.
      * rewrite <- app_assoc. simpl. unfold axis_series at 2. rewrite Hg.
        reflexivity.
      * intros x0 [<-|Hx0]; [rewrite Hg; reflexivity | exact (Hs x0 Hx0)].
Qed.

Lemma axis_params_std (a : axis) :
  axis_params cfg a (std_value cfg a) = std_params cfg.
Proof. destruct a; apply params_eta. Qed.

End DistinctKeys.

Lemma Forall2_nth_error {A B : Type} (R : A -> B -> Prop) (l : list A) (l' : list B) :
  Forall2 R l l' ->
  forall i x, nth_error l i = Some x ->
              exists y, nth_error l' i = Some y /\ R x y.
Proof.
  induction 1 as [|a b l l' Hab _ IH]; intros [|i] x Hx; simpl in *;
    try discriminate.
  - injection Hx as <-. exists b. split; [reflexivity | exact Hab].
  - exact (IH i x Hx).
Qed.

(** ** The calls a run makes *)

Section Calls.

Variable T_b : simulation.
Variable cfg : config.

Lemma calls_satisfy_bind {A B : Type} (P : call -> Prop) (m : M A) (k : A -> M B) :
  calls_satisfy P m -> (forall a, calls_satisfy P (k a)) ->
  calls_satisfy P (bind m k).
Proof.
  intros Hm Hk st. unfold bind.
  destruct (Hm st) as (cs1 & Hc1 & HP1).
  destruct (m st) as [[a|e] st1]; simpl in *.
  - destruct (Hk a st1) as (cs2 & Hc2 & HP2).
    exists (cs1 ++ cs2). rewrite Hc2, Hc1, app_assoc. split; [reflexivity|].
    apply Forall_app. split; assumption.
  - exists cs1. split; assumption.
Qed.

Lemma calls_satisfy_weaken {A : Type} (P Q : call -> Prop) (m : M A) :
  (forall c, P c -> Q c) -> calls_satisfy P m -> calls_satisfy Q m.
Proof.
  intros HPQ Hm st. destruct (Hm st) as (cs & Hc & HP).
  exists cs. split; [exact Hc|]. eapply Forall_impl; [exact HPQ | exact HP].
Qed.

Lemma standard_model_calls_form :
  calls_satisfy
    (fun c => exists r, In r (z cfg) /\ c = the_call (std_params cfg) r)
    (standard_model T_b cfg).
Proof.
  intros st. rewrite standard_model_eq.
  destruct (run_grid T_b (std_params cfg) (z cfg)) as [[vs cs] e] eqn:Hg.
  exists cs. split; [destruct e; reflexivity|].
  exact (run_grid_calls _ _ _ _ _ _ Hg).
Qed.

Lemma axis_sweep_calls_form (a : axis) :
  calls_satisfy
    (fun c => exists x r, In x (axis_values cfg a) /\ In r (z cfg) /\
                          c = the_call (axis_params cfg a x) r)
    (axis_sweep T_b cfg a).
Proof.
  intros st. rewrite axis_sweep_eq.
  destruct (run_axis T_b cfg a (axis_values cfg a) []) as [[d cs] e] eqn:Ha.
  exists cs. split; [destruct a; reflexivity|].
  exact (run_axis_calls _ _ _ _ _ _ _ _ Ha).
Qed.

Lemma script_calls_box :
  calls_satisfy (fun c => c_box c = 50) (script T_b cfg).
Proof.
  assert (Hs : calls_satisfy (fun c => c_box c = 50) (standard_model T_b cfg)).
  { eapply calls_satisfy_weaken; [|apply standard_model_calls_form].
    intros c (r & _ & ->). reflexivity. }
  assert (Ha : forall a, calls_satisfy (fun c => c_box c = 50)
                           (axis_sweep T_b cfg a)).
  { intros a. eapply calls_satisfy_weaken; [|apply axis_sweep_calls_form].
    intros c (x & r & _ & _ & ->). reflexivity. }
  unfold script.
  apply calls_satisfy_bind; [exact Hs | intros _].
  apply calls_satisfy_bind; [apply Ha | intros _].
  apply calls_satisfy_bind; [apply Ha | intros _].
  apply Ha.
Qed.

(** When the simulation returns on every input, the script runs to its end. *)
Lemma script_completes :
  (forall c, succeeds T_b c) -> fst (run_script T_b cfg) = Ok tt.
Proof.
  intros Hs. unfold run_script.
  destruct (script_run T_b cfg initial_store) as (cs & _ & Ht & _).
  destruct (fst (script T_b cfg initial_store)) as [[]|e]; [reflexivity|].
  simpl in Ht. destruct Ht as (pre & c & _ & _ & Hc).
  destruct (Hs c) as [bt Hbt]. congruence.
Qed.

End Calls.

(** C2. For series of equal length whose baseline entries are all nonzero,
    [diff] returns a series of that length whose entry at every index [i] is
    [(s[i] - b[i]) / b[i] * 100] in float64 arithmetic; and for the baseline
    [[10.0, 10.0, 10.0]] and the series [[12.0, 12.0, 12.0]] the result is
    [[20.0, 20.0, 20.0]]. *)
Theorem diff_pointwise (s b : list float)
  (Hlen : length s = length b)
  (Hnz : Forall (fun x => F64.is_zero x = false) b) :
  (exists d, diff s b = Ok d /\ length d = length b /\
     forall i si bi, nth_error s i = Some si -> nth_error b i = Some bi ->
       nth_error d i
       = Some (F64.mul (F64.div (F64.sub si bi) bi) (F64.of_Z 100))) /\
  diff [f12; f12; f12] [f10; f10; f10] = Ok [f20; f20; f20].
Proof.
  split; [|reflexivity].
  exists (zip_with percent s b). split; [apply diff_same_length, Hlen|].
  split; [apply zip_with_length, Hlen|].
  intros i si bi Hs Hb. apply (zip_with_nth percent _ _ _ _ _ Hs Hb).
Qed.

Lemma diff_pointwise_witness :
  exists d, diff [f12; f10] [f10; f12] = Ok d /\ length d = 2%nat.
Proof.
  destruct (diff_pointwise [f12; f10] [f10; f12]) as [(d & Hd & Hl & _) _].
  - reflexivity.
  - repeat constructor.
  - exists d. split; [exact Hd | exact Hl].
Defined.

(** C3 (as stated, refuted). A zero in the baseline raises nothing: the
    quotient is returned, infinite or NaN, by the array expression and by the
    expression on the final entries alike. *)
Lemma diff_zero_baseline_returns_inf :
  diff [f12; f12] [F64.zero; f10] = Ok [F64.inf; f20] /\
  diff [F64.zero] [F64.zero] = Ok [F64.nan] /\
  diff_last [f10; f12] [f10; F64.zero] = Ok F64.inf.
Proof. repeat split; reflexivity. Qed.

(** C3 (amended). For series of equal length [diff] always returns a series;
    wherever the baseline is zero its entry is not finite (an infinity or
    NaN).  The same holds for the expression on the final entries. *)
Theorem diff_zero_baseline_not_finite (s b : list float)
  (Hlen : length s = length b) :
  (exists d, diff s b = Ok d /\ length d = length b /\
     forall i bi, nth_error b i = Some bi -> F64.is_zero bi = true ->
       exists x, nth_error d i = Some x /\ F64.is_finite x = false) /\
  (forall sl bl, last_item s = Ok sl -> last_item b = Ok bl ->
     F64.is_zero bl = true ->
     exists x, diff_last s b = Ok x /\ F64.is_finite x = false).
Proof.
  split.
  - exists (zip_with percent s b). split; [apply diff_same_length, Hlen|].
    split; [apply zip_with_length, Hlen|].
    intros i bi Hb Hz.
    destruct (nth_error s i) as [si|] eqn:Hs.
    + exists (percent si bi). split.
      * apply (zip_with_nth percent _ _ _ _ _ Hs Hb).
      * apply F64Facts.percent_zero_baseline, Hz.
    + apply nth_error_None in Hs.
      assert (nth_error b i <> None) as Hi by congruence.
      apply nth_error_Some in Hi. lia.
  - intros sl bl Hs Hb Hz. unfold diff_last. rewrite Hs, Hb.
    eexists. split; [reflexivity|].
    apply F64Facts.percent_zero_baseline, Hz.
Qed.

Lemma diff_zero_baseline_not_finite_witness :
  exists d, diff [f12; f12] [F64.zero; f10] = Ok d /\ length d = 2%nat.
Proof.
  destruct (diff_zero_baseline_not_finite [f12; f12] [F64.zero; f10])
    as [(d & Hd & Hl & _) _].
  - reflexivity.
  - exists d. split; [exact Hd | exact Hl].
Defined.

(** C4 (as stated, refuted). A series of one element is broadcast against a
    baseline of three: a result is produced. *)
Lemma diff_broadcasts_single_element :
  diff [f12] [f10; f10; f10] = Ok [f20; f20; f20].
Proof. reflexivity. Qed.

(** C4 (amended). For series of different lengths, [diff] raises numpy's
    [ValueError] when neither length is one; when one operand has exactly one
    element it is broadcast and a result as long as the other operand is
    returned. *)
Theorem diff_length_mismatch (s b : list float)
  (Hlen : length s <> length b) :
  (length s <> 1%nat -> length b <> 1%nat -> diff s b = Raise ValueError) /\
  (length s = 1%nat -> exists d, diff s b = Ok d /\ length d = length b) /\
  (length b = 1%nat -> exists d, diff s b = Ok d /\ length d = length s).
Proof.
  assert (E : Nat.eqb (length s) (length b) = false) by (apply Nat.eqb_neq, Hlen).
  repeat split.
  - intros Hs Hb. unfold diff, np_binop. rewrite E.
    destruct s as [|x [|x' s']]; destruct b as [|y [|y' b']];
      simpl in *; try congruence.
  - intros Hs. destruct s as [|x [|x' s']]; try discriminate.
    unfold diff. unfold np_binop at 1. rewrite E.
    rewrite np_binop_same_length by apply length_map.
    eexists. split; [reflexivity|].
    unfold np_scalar_op. rewrite length_map.
    apply zip_with_length, length_map.
  - intros Hb. destruct b as [|y [|y' b']]; try discriminate.
    assert (Hs : length s <> 1%nat) by (simpl in Hlen; exact Hlen).
    assert (E' : forall f : float -> float,
               Nat.eqb (length (map f s)) (length [y]) = false).
    { intros f. rewrite length_map. exact E. }
    unfold diff, np_binop. rewrite E.
    destruct s as [|x [|x' s']]; [ | simpl in Hs; congruence | ].
    + eexists. split; reflexivity.
    + rewrite E'. eexists. split; [reflexivity|].
      unfold np_scalar_op. rewrite !length_map. reflexivity.
Qed.

Lemma diff_length_mismatch_witness :
  diff [f12; f12] [f10; f10; f10] = Raise ValueError.
Proof.
  apply (diff_length_mismatch [f12; f12] [f10; f10; f10]);
    simpl; lia.
Defined.

(** C9 (as stated, refuted). An infinite observable is nonzero, and the
    difference of a series holding it against itself is NaN, not zero. *)
Lemma diff_self_infinite_is_nan :
  F64.is_zero F64.inf = false /\
  diff [F64.inf] [F64.inf] = Ok [F64.nan] /\
  F64.is_zero F64.nan = false.
Proof. repeat split; reflexivity. Qed.

(** C9 (amended). For a series of nonzero finite values, [diff] of the series
    against itself is a series of the same length all of whose entries are
    zero. *)
Theorem diff_self_is_zero (b : list float)
  (Hb : Forall (fun x => F64.is_zero x = false /\ F64.is_finite x = true) b) :
  exists d, diff b b = Ok d /\ length d = length b /\
            Forall (fun x => F64.is_zero x = true) d.
Proof.
  exists (zip_with percent b b).
  split; [apply diff_same_length; reflexivity|].
  split; [apply zip_with_length; reflexivity|].
  induction Hb as [|x b [Hz Hf] _ IH]; simpl; constructor.
  - apply F64Facts.percent_self; assumption.
  - exact IH.
Qed.

Lemma diff_self_is_zero_witness :
  exists d, diff [f10; F64.lit (-69) 100] [f10; F64.lit (-69) 100] = Ok d /\
            length d = 2%nat.
Proof.
  destruct (diff_self_is_zero [f10; F64.lit (-69) 100]) as (d & Hd & Hl & _).
  - repeat constructor.
  - exists d. split; [exact Hd | exact Hl].
Defined.




(** C1. When the simulation returns a field at every redshift of the grid
    for the standard parameters, the standard-model loop ends normally and
    binds [Tb_std] to an array with exactly one entry per redshift, the entry
    at index [i] being the mean of the field simulated at the [i]-th
    redshift. *)
Theorem standard_model_aligned (T_b : simulation) (cfg : config) (st : store)
  (Hvalid : forall r, In r (z cfg) ->
     exists bt, T_b 50 r (hubble (std_params cfg)) (matter (std_params cfg))
                  (baryon (std_params cfg)) = Ok bt) :
  exists series st',
    standard_model T_b cfg st = (Ok tt, st') /\
    Tb_std st' = Some (NdArray series) /\
    length series = length (z cfg) /\
    forall i r, nth_error (z cfg) i = Some r ->
      exists bt,
        T_b 50 r (hubble (std_params cfg)) (matter (std_params cfg))
          (baryon (std_params cfg)) = Ok bt /\
        nth_error series i = Some (np_mean (brightness_temp bt)).
Proof.
  destruct (run_grid_total T_b (std_params cfg) (z cfg)) as (vs & Hg & HF).
  { intros r Hr. exact (Hvalid r Hr). }
  exists vs, (set_Tb_std (NdArray vs) (add_calls (map (the_call (std_params cfg)) (z cfg)) st)).
  rewrite standard_model_eq, Hg.
  split; [reflexivity|]. split; [reflexivity|].
  split; [symmetry; exact (Forall2_length HF)|].
  intros i r Hi.
  destruct (Forall2_nth_error _ _ _ HF i r Hi) as (v & Hv & Ho).
  destruct (observable_ok_inv _ _ _ _ Ho) as (bt & Hbt & ->).
  exists bt. split; [exact Hbt | exact Hv].
Qed.

Lemma standard_model_aligned_witness :
  exists series st',
    standard_model constant_simulation source_config initial_store = (Ok tt, st') /\
    Tb_std st' = Some (NdArray series) /\
    length series = 30%nat.
Proof.
  destruct (standard_model_aligned constant_simulation source_config initial_store)
    as (series & st' & Hrun & Hstd & Hlen & _).
  - intros r _. eexists. reflexivity.
  - exists series, st'. split; [exact Hrun|]. split; [exact Hstd|].
    rewrite Hlen. reflexivity.
Defined.

(** C10. Every call of the simulation made by the script, in the standard
    model and in the three sweeps, whether the script ends normally or not,
    passes [box = 50]. *)
Theorem every_call_uses_box_50 (T_b : simulation) (cfg : config) :
  Forall (fun c => c_box c = 50) (T_b_calls (snd (run_script T_b cfg))).
Proof.
  unfold run_script.
  destruct (script_calls_box T_b cfg initial_store) as (cs & Hc & HF).
  rewrite Hc. exact HF.
Qed.

(** C8 (as stated, refuted). With a simulation that raises at the last
    redshift for [hubble = 0.71], the script ends with that exception and
    [Tb_hubble[0.71]] is left bound to a Python list of 29 observables, for a
    grid of 30 redshifts. *)
Lemma failure_leaves_partial_series :
  fst (run_script failing_simulation source_config)
  = Raise (PyExn "SimulationError") /\
  exists d vs,
    Tb_hubble (snd (run_script failing_simulation source_config)) = Some d /\
    dict_get (F64.lit 71 100) d = Some (PyList vs) /\
    length vs = 29%nat /\
    length (z source_config) = 30%nat.
Proof.
  split; [vm_compute; reflexivity|].
  vm_compute. do 2 eexists. repeat split.
Qed.



(** ** More on dicts *)

Section DictFacts.

Lemma dict_set_full (n : nat) (k : float) (s : list float) (d : dict) :
  full_entries n d -> length s = n ->
  full_entries n (dict_set k (NdArray s) d).
Proof.
  intros Hd Hs. unfold full_entries in *.
  induction Hd as [|[k' v'] d Hv Hd IH]; simpl.
  - constructor; [|constructor]. exists s. split; [reflexivity | exact Hs].
  - destruct (key_eqb k' k); constructor; auto.
    exists s. split; [reflexivity | exact Hs].
Qed.

Lemma dict_get_full (n : nat) (k : float) (v : pyseq) (d : dict) :
  full_entries n d -> dict_get k d = Some v ->
  exists s, v = NdArray s /\ length s = n.
Proof.
  intros Hd. unfold full_entries in Hd.
  induction Hd as [|[k' v'] d Hv _ IH]; simpl; [discriminate|].
  destruct (key_eqb k' k); [|exact IH].
  intros H. injection H as <-. exact Hv.
Qed.

Lemma dict_get_set_some (k k2 : float) (v : pyseq) (d : dict) :
  dict_get k d <> None -> dict_get k (dict_set k2 v d) <> None.
Proof.
  induction d as [|[k' v'] d IH]; simpl; [congruence|].
  destruct (key_eqb k' k) eqn:E.
  - intros _. destruct (key_eqb k' k2); simpl; rewrite E; discriminate.
  - intros H. destruct (key_eqb k' k2); simpl; rewrite E; auto.
Qed.

(** Assigning to a key keeps the keys, or adds the key at the end when no
    key of the dict equals it. *)
Lemma dict_keys_set (k : float) (v : pyseq) (d : dict) :
  dict_keys (dict_set k v d) = dict_keys d \/
  (dict_keys (dict_set k v d) = dict_keys d ++ [k] /\
   forallb (fun k' => negb (key_eqb k' k)) (dict_keys d) = true).
Proof.
  induction d as [|[k' v'] d IH]; simpl.
  - right. split; reflexivity.
  - destruct (key_eqb k' k) eqn:E; simpl.
    + left. reflexivity.
    + destruct IH as [IH|[IH Hf]].
      * left. rewrite IH. reflexivity.
      * right. rewrite IH, Hf. split; reflexivity.
Qed.

Lemma distinct_keys_snoc (l : list float) (k : float) :
  distinct_keys l = true ->
  forallb (fun k' => negb (key_eqb k' k)) l = true ->
  distinct_keys (l ++ [k]) = true.
Proof.
  induction l as [|x l IH]; simpl; [reflexivity|].
  intros Hd Hf. apply andb_prop in Hd. destruct Hd as [Hx Hd].
  apply andb_prop in Hf. destruct Hf as [Hxk Hf].
  rewrite (IH Hd Hf), andb_true_r.
  rewrite forallb_app, Hx. simpl. rewrite Hxk. reflexivity.
Qed.

Lemma dict_set_distinct (k : float) (v : pyseq) (d : dict) :
  distinct_keys (dict_keys d) = true ->
  distinct_keys (dict_keys (dict_set k v d)) = true.
Proof.
  intros Hd. destruct (dict_keys_set k v d) as [->|[-> Hf]]; [exact Hd|].
  apply distinct_keys_snoc; assumption.
Qed.

Lemma dict_set_keys_incl (k : float) (v : pyseq) (d : dict) (k0 : float) :
  In k0 (dict_keys (dict_set k v d)) -> In k0 (dict_keys d) \/ k0 = k.
Proof.
  destruct (dict_keys_set k v d) as [->|[-> _]]; [auto|].
  intros H. apply in_app_or in H. destruct H as [H|[<-|[]]]; auto.
Qed.

Lemma dict_set_keys_length (k : float) (v : pyseq) (d : dict) :
  (length (dict_keys (dict_set k v d)) <= S (length (dict_keys d)))%nat.
Proof.
  destruct (dict_keys_set k v d) as [->|[-> _]]; [lia|].
  rewrite length_app. simpl. lia.
Qed.

End DictFacts.

(** ** More on the sweeps *)

Section SweepFacts.

Variable T_b : simulation.
Variable cfg : config.

(** Whatever its outcome, a pass over an axis keeps the keys of the dict
    pairwise different and adds only values of the axis. *)
Lemma run_axis_keys (a : axis) (xs : list float) :
  forall d d' cs e,
    run_axis T_b cfg a xs d = (d', cs, e) ->
    (distinct_keys (dict_keys d) = true ->
     distinct_keys (dict_keys d') = true) /\
    (forall k, In k (dict_keys d') -> In k (dict_keys d) \/ In k xs) /\
    (length (dict_keys d') <= length (dict_keys d) + length xs)%nat.
Proof.
  induction xs as [|x xs IH]; intros d d' cs e H; simpl in H.
  - injection H as <- _ _. repeat split; auto. lia.
  - destruct (run_grid T_b (axis_params cfg a x) (z cfg)) as [[vs cs1] [ex|]].
    + injection H as <- _ _. repeat split.
      * apply dict_set_distinct.
      * intros k Hk. apply dict_set_keys_incl in Hk.
        destruct Hk as [Hk| ->]; [left; exact Hk | right; left; reflexivity].
      * pose proof (dict_set_keys_length x (PyList vs) d). simpl. lia.
    + destruct (run_axis T_b cfg a xs (dict_set x (NdArray vs) d))
        as [[d2 cs2] e2] eqn:Ha.
      injection H as <- _ _.
      destruct (IH _ _ _ _ Ha) as (Hd & Hk & Hl). repeat split.
      * intros Hdd. apply Hd, dict_set_distinct, Hdd.
      * intros k Hin. destruct (Hk k Hin) as [Hin'|Hin'].
        -- apply dict_set_keys_incl in Hin'.
           destruct Hin' as [Hin'| ->]; [left; exact Hin' | right; left; reflexivity].
        -- right. right. exact Hin'.
      * pose proof (dict_set_keys_length x (NdArray vs) d). simpl. lia.
Qed.

(** A pass over an axis that ends normally leaves an array as long as the
    grid under every value, and has called the simulation at every redshift
    for every value, in order. *)
Lemma run_axis_full (a : axis) (xs : list float) :
  forall d d' cs,
    run_axis T_b cfg a xs d = (d', cs, None) ->
    full_entries (length (z cfg)) d ->
    full_entries (length (z cfg)) d' /\
    (forall h, dict_get h d <> None -> dict_get h d' <> None) /\
    (forall h, In h xs -> dict_get h d' <> None) /\
    cs = sweep_calls cfg a xs.
Proof.
  induction xs as [|x xs IH]; intros d d' cs H Hd; simpl in H.
  - injection H as <- <-. repeat split; auto; intros h [].
  - destruct (run_grid T_b (axis_params cfg a x) (z cfg)) as [[vs cs1] [ex|]] eqn:Hg;
      [discriminate|].
    destruct (run_axis T_b cfg a xs (dict_set x (NdArray vs) d))
      as [[d2 cs2] e2] eqn:Ha.
    injection H as <- <- ->.
    pose proof (run_grid_length _ _ _ _ _ _ Hg) as Hl. simpl in Hl.
    destruct (IH _ _ _ Ha (dict_set_full _ x vs d Hd Hl)) as (Hf & Hk & Hx & ->).
    destruct (run_grid_inv _ _ _ _ _ _ Hg) as (g1 & rest & Hz & _ & -> & ->).
    rewrite app_nil_r in Hz. subst g1.
    repeat split.
    + exact Hf.
    + intros h Hh. apply Hk, dict_get_set_some, Hh.
    + intros h [<-|Hh]; [|exact (Hx h Hh)].
      apply Hk. rewrite dict_get_set. discriminate.
Qed.

End SweepFacts.

(** ** The reporting part on the store of a completed run *)

Section ReportFacts.

Variable cfg : config.

Lemma collect_unless_ok {A B : Type} (skip : A -> bool) (f : A -> M B)
      (g : A -> B) (st : store) (xs : list A) :
  (forall x, In x xs -> skip x = false -> f x st = (Ok (g x), st)) ->
  forall acc,
    collect_unless skip f xs acc st
    = (Ok (acc ++ map g (filter (fun x => negb (skip x)) xs)), st).
Proof.
  unfold collect_unless.
  induction xs as [|x xs IH]; intros H acc; simpl.
  - rewrite app_nil_r. reflexivity.
  - assert (IH' := IH (fun y Hy => H y (or_intror Hy))).
    unfold bind at 1. destruct (skip x) eqn:E; simpl.
    + apply IH'.
    + unfold bind at 1. rewrite (H x (or_introl eq_refl) E). simpl.
      rewrite IH', <- app_assoc. reflexivity.
Qed.

Lemma read_Tb_std_ok (st : store) (s : pyseq) :
  Tb_std st = Some s -> read_Tb_std st = (Ok s, st).
Proof.
  intros H. unfold read_Tb_std, bind, get, as_seq. rewrite H. reflexivity.
Qed.

Lemma last_item_snoc (l : list float) (x : float) :
  last_item (l ++ [x]) = Ok x.
Proof. unfold last_item. rewrite rev_app_distr. reflexivity. Qed.

Lemma last_item_ok (l : list float) :
  l <> [] -> last_item l = Ok (final_of l).
Proof.
  intros H. destruct (exists_last H) as (l' & x & ->).
  unfold final_of. rewrite last_item_snoc, last_last. reflexivity.
Qed.

Lemma zip_with_snoc (op : float -> float -> float) (a b : list float) (x y : float) :
  length a = length b ->
  zip_with op (a ++ [x]) (b ++ [y]) = zip_with op a b ++ [op x y].
Proof.
  revert b. induction a as [|x0 a IH]; intros [|y0 b] H; simpl in *;
    try discriminate; [reflexivity|].
  rewrite IH by congruence. reflexivity.
Qed.

Lemma final_of_percent (s b : list float) :
  length s = length b -> s <> [] ->
  final_of (zip_with percent s b) = percent (final_of s) (final_of b).
Proof.
  intros Hl Hs.
  destruct (exists_last Hs) as (s' & x & ->).
  assert (Hb : b <> []).
  { intros ->. rewrite length_app in Hl. simpl in Hl. lia. }
  destruct (exists_last Hb) as (b' & y & ->).
  rewrite !length_app in Hl. simpl in Hl.
  rewrite zip_with_snoc by lia.
  unfold final_of. rewrite !last_last. reflexivity.
Qed.

Lemma nonempty_of_length (l g : list float) :
  length l = length g -> g <> [] -> l <> [].
Proof. intros H Hg ->. destruct g; [congruence | discriminate]. Qed.

Section Completed.

Variable st : store.
Hypothesis Hst : completed cfg st.

Lemma completed_std :
  read_Tb_std st = (Ok (NdArray (standard_series st)), st) /\
  length (standard_series st) = length (z cfg).
Proof.
  destruct Hst as [(vs & Hvs & Hl) _].
  unfold standard_series. rewrite (read_Tb_std_ok _ _ Hvs), Hvs.
  split; [reflexivity | exact Hl].
Qed.

Lemma completed_getitem (a : axis) (h : float) :
  In h (axis_values cfg a) ->
  getitem a h st = (Ok (NdArray (series_of st a h)), st) /\
  length (series_of st a h) = length (z cfg).
Proof.
  intros Hh. destruct Hst as [_ Hd].
  destruct (Hd a) as (d & Ha & Hall).
  destruct (Hall h Hh) as (s & Hs & Hl).
  unfold series_of. rewrite (getitem_eq a h d _ st Ha Hs), Ha, Hs.
  split; [reflexivity | exact Hl].
Qed.

Lemma zipped_value (a : axis) (hc : float * string) :
  In hc (zipped cfg a) -> In (fst hc) (axis_values cfg a).
Proof.
  destruct hc as [h c]. unfold zipped. intros H.
  exact (in_combine_l _ _ _ _ H).
Qed.

Lemma completed_array_diff (a : axis) (h : float) :
  In h (axis_values cfg a) ->
  array_diff (NdArray (series_of st a h)) (NdArray (standard_series st)) st
  = (Ok (zip_with percent (series_of st a h) (standard_series st)), st).
Proof.
  intros Hh. unfold array_diff, lift. simpl.
  rewrite diff_same_length; [reflexivity|].
  destruct (completed_getitem a h Hh) as [_ ->].
  destruct completed_std as [_ ->]. reflexivity.
Qed.

Lemma plot_axis_ok (a : axis) (acc : list curve) :
  plot_axis cfg a acc st = (Ok (acc ++ stored_curves cfg st a), st).
Proof.
  unfold plot_axis, stored_curves, plotted_values.
  apply collect_unless_ok. intros hc Hin _.
  destruct (completed_getitem a (fst hc) (zipped_value a hc Hin)) as [Hg _].
  rewrite (bind_ok _ _ _ _ _ Hg). reflexivity.
Qed.

Lemma all_variations_ok :
  all_variations cfg st
  = (Ok (stored_curves cfg st Hubble ++ stored_curves cfg st Matter
         ++ stored_curves cfg st Baryon), st).
Proof.
  unfold all_variations.
  rewrite (bind_ok _ _ _ _ _ (proj1 completed_std)).
  rewrite (bind_ok _ _ _ _ _ (plot_axis_ok Hubble [])).
  rewrite (bind_ok _ _ _ _ _ (plot_axis_ok Matter _)).
  rewrite plot_axis_ok, <- app_assoc. reflexivity.
Qed.

Lemma hubble_panel_ok :
  hubble_panel cfg st = (Ok (stored_curves cfg st Hubble), st).
Proof.
  unfold hubble_panel.
  rewrite (bind_ok _ _ _ _ _ (proj1 completed_std)).
  unfold stored_curves, plotted_values.
  apply (collect_unless_ok _ _ _ st (zipped cfg Hubble)) with (acc := []).
  intros hc Hin _.
  pose proof (zipped_value Hubble hc Hin) as Hh.
  destruct (completed_getitem Hubble (fst hc) Hh) as [Hg _].
  rewrite (bind_ok _ _ _ _ _ Hg).
  rewrite (bind_ok _ _ _ _ _ (proj1 completed_std)).
  rewrite (bind_ok _ _ _ _ _ (completed_array_diff Hubble (fst hc) Hh)).
  rewrite (bind_ok _ _ _ _ _ Hg). reflexivity.
Qed.

Lemma axis_panel_ok (a : axis) :
  axis_panel cfg a st = (Ok (stored_curves cfg st a), st).
Proof.
  unfold axis_panel.
  rewrite (bind_ok _ _ _ _ _ (proj1 completed_std)).
  apply (plot_axis_ok a []).
Qed.

Lemma difference_curves_ok (a : axis) (acc : list curve) :
  difference_curves cfg a acc st = (Ok (acc ++ percent_curves cfg st a), st).
Proof.
  unfold difference_curves, percent_curves, plotted_values.
  apply collect_unless_ok. intros hc Hin _.
  pose proof (zipped_value a hc Hin) as Hh.
  destruct (completed_getitem a (fst hc) Hh) as [Hg _].
  rewrite (bind_ok _ _ _ _ _ Hg).
  rewrite (bind_ok _ _ _ _ _ (proj1 completed_std)).
  rewrite (bind_ok _ _ _ _ _ (completed_array_diff a (fst hc) Hh)).
  reflexivity.
Qed.

Lemma percentage_differences_ok :
  percentage_differences cfg st
  = (Ok (percent_curves cfg st Hubble ++ percent_curves cfg st Matter
         ++ percent_curves cfg st Baryon), st).
Proof.
  unfold percentage_differences.
  rewrite (bind_ok _ _ _ _ _ (difference_curves_ok Hubble [])).
  rewrite (bind_ok _ _ _ _ _ (difference_curves_ok Matter _)).
  rewrite difference_curves_ok, <- app_assoc. reflexivity.
Qed.

Hypothesis Hz : z cfg <> [].

Lemma completed_std_final :
  last_item (standard_series st) = Ok (final_of (standard_series st)).
Proof.
  apply last_item_ok.
  exact (nonempty_of_length _ _ (proj2 completed_std) Hz).
Qed.

Lemma completed_final (a : axis) (h : float) :
  In h (axis_values cfg a) ->
  last_item (series_of st a h) = Ok (final_of (series_of st a h)).
Proof.
  intros Hh. apply last_item_ok.
  exact (nonempty_of_length _ _ (proj2 (completed_getitem a h Hh)) Hz).
Qed.

Lemma add_bars_ok (a : axis) (acc : bars) :
  add_bars cfg a acc st
  = (Ok (mkBars
           (parameters acc ++ map (fun hc => AxisValue a (fst hc))
                                  (plotted_values cfg a))
           (values acc ++ map (fun hc => final_of (series_of st a (fst hc)))
                              (plotted_values cfg a))
           (colors acc ++ map snd (plotted_values cfg a))),
     st).
Proof.
  unfold add_bars, plotted_values.
  assert (Hin : forall hc, In hc (zipped cfg a) -> In (fst hc) (axis_values cfg a))
    by (intros hc; apply zipped_value).
  revert acc. induction (zipped cfg a) as [|hc l IH]; intros acc; simpl.
  - rewrite !app_nil_r. destruct acc; reflexivity.
  - assert (IH' := IH (fun y Hy => Hin y (or_intror Hy))).
    unfold bind at 1. destruct (is_standard cfg a (fst hc)) eqn:E; simpl.
    + apply IH'.
    + pose proof (Hin hc (or_introl eq_refl)) as Hh.
      destruct (completed_getitem a (fst hc) Hh) as [Hg _].
      rewrite (bind_ok _ _ _ _ _ Hg).
      unfold lift at 1. unfold bind at 1. simpl items.
      rewrite (completed_final a (fst hc) Hh). simpl.
      rewrite IH'. simpl. rewrite <- !app_assoc. reflexivity.
Qed.

Lemma final_comparison_ok :
  final_comparison cfg st
  = (Ok (mkBars
           (Standard ::
              map (fun hc => AxisValue Hubble (fst hc)) (plotted_values cfg Hubble)
              ++ map (fun hc => AxisValue Matter (fst hc)) (plotted_values cfg Matter)
              ++ map (fun hc => AxisValue Baryon (fst hc)) (plotted_values cfg Baryon))
           (final_of (standard_series st) ::
              map (fun hc => final_of (series_of st Hubble (fst hc)))
                  (plotted_values cfg Hubble)
              ++ map (fun hc => final_of (series_of st Matter (fst hc)))
                     (plotted_values cfg Matter)
              ++ map (fun hc => final_of (series_of st Baryon (fst hc)))
                     (plotted_values cfg Baryon))
           ("black"%string ::
              map snd (plotted_values cfg Hubble)
              ++ map snd (plotted_values cfg Matter)
              ++ map snd (plotted_values cfg Baryon))),
     st).
Proof.
  unfold final_comparison.
  rewrite (bind_ok _ _ _ _ _ (proj1 completed_std)).
  unfold lift at 1. unfold bind at 1. simpl items.
  rewrite completed_std_final.
  rewrite (bind_ok _ _ _ _ _ (add_bars_ok Hubble _)).
  rewrite (bind_ok _ _ _ _ _ (add_bars_ok Matter _)).
  rewrite add_bars_ok. simpl. rewrite <- !app_assoc. reflexivity.
Qed.

Lemma summary_axis_ok (a : axis) (acc : list summary_row) :
  summary_axis cfg a acc st = (Ok (acc ++ printed_rows cfg st a), st).
Proof.
  unfold summary_axis, printed_rows, printed_values.
  apply collect_unless_ok. intros h Hh _.
  destruct (completed_getitem a h Hh) as [Hg _].
  rewrite (bind_ok _ _ _ _ _ Hg).
  unfold lift at 1. unfold bind at 1. simpl items.
  rewrite (completed_final a h Hh).
  rewrite (bind_ok _ _ _ _ _ (proj1 completed_std)).
  unfold lift at 1. unfold bind at 1. simpl items.
  unfold diff_last. rewrite (completed_final a h Hh), completed_std_final.
  rewrite (bind_ok _ _ _ _ _ Hg).
  unfold lift, bind. simpl items. rewrite (completed_final a h Hh).
  reflexivity.
Qed.

Lemma summary_ok :
  summary cfg st
  = (Ok (final_of (standard_series st),
         printed_rows cfg st Hubble ++ printed_rows cfg st Matter
         ++ printed_rows cfg st Baryon), st).
Proof.
  unfold summary.
  rewrite (bind_ok _ _ _ _ _ (proj1 completed_std)).
  unfold lift at 1. unfold bind at 1. simpl items.
  rewrite completed_std_final.
  rewrite (bind_ok _ _ _ _ _ (summary_axis_ok Hubble [])).
  rewrite (bind_ok _ _ _ _ _ (summary_axis_ok Matter _)).
  rewrite (bind_ok _ _ _ _ _ (summary_axis_ok Baryon _)).
  rewrite <- app_assoc. reflexivity.
Qed.

Lemma reporting_ok :
  exists r, reporting cfg st = (Ok r, st) /\
    overview r = stored_curves cfg st Hubble ++ stored_curves cfg st Matter
                 ++ stored_curves cfg st Baryon /\
    differences r = percent_curves cfg st Hubble ++ percent_curves cfg st Matter
                    ++ percent_curves cfg st Baryon /\
    final_comparison cfg st = (Ok (comparison r), st) /\
    printed r = (final_of (standard_series st),
                 printed_rows cfg st Hubble ++ printed_rows cfg st Matter
                 ++ printed_rows cfg st Baryon).
Proof.
  unfold reporting.
  rewrite (bind_ok _ _ _ _ _ all_variations_ok).
  rewrite (bind_ok _ _ _ _ _ hubble_panel_ok).
  rewrite (bind_ok _ _ _ _ _ (axis_panel_ok Matter)).
  rewrite (bind_ok _ _ _ _ _ (axis_panel_ok Baryon)).
  rewrite (bind_ok _ _ _ _ _ percentage_differences_ok).
  rewrite (bind_ok _ _ _ _ _ final_comparison_ok).
  rewrite (bind_ok _ _ _ _ _ summary_ok).
  eexists. split; [reflexivity|]. simpl.
  rewrite final_comparison_ok. repeat split.
Qed.

End Completed.

End ReportFacts.

Section CompletedRun.

Variable T_b : simulation.
Variable cfg : config.

(** A run of the sweeps that ends normally leaves a completed store, and
    has made the calls of the standard model and of the three sweeps. *)
Lemma script_completed :
  fst (run_script T_b cfg) = Ok tt ->
  completed cfg (snd (run_script T_b cfg)) /\
  T_b_calls (snd (run_script T_b cfg))
  = map (the_call (std_params cfg)) (z cfg)
    ++ sweep_calls cfg Hubble (hubble_variations cfg)
    ++ sweep_calls cfg Matter (matter_variations cfg)
    ++ sweep_calls cfg Baryon (baryon_variations cfg) /\
  forall a, exists d,
    axis_dict a (snd (run_script T_b cfg)) = Some d /\
    distinct_keys (dict_keys d) = true /\
    (forall k, In k (dict_keys d) -> In k (axis_values cfg a)) /\
    (length (dict_keys d) <= length (axis_values cfg a))%nat.
Proof.
  unfold run_script. rewrite script_eq.
  destruct (run_grid T_b (std_params cfg) (z cfg)) as [[vs cs] [e|]] eqn:Hg;
    [discriminate|].
  destruct (run_axis T_b cfg Hubble (hubble_variations cfg) [])
    as [[dh ch] [e|]] eqn:Hh; [discriminate|].
  destruct (run_axis T_b cfg Matter (matter_variations cfg) [])
    as [[dm cm] [e|]] eqn:Hm; [discriminate|].
  destruct (run_axis T_b cfg Baryon (baryon_variations cfg) [])
    as [[db cb] [e|]] eqn:Hb; [discriminate|].
  intros _.
  pose proof (run_grid_length _ _ _ _ _ _ Hg) as Hl. simpl in Hl.
  destruct (run_grid_inv _ _ _ _ _ _ Hg) as (g1 & rest & Hz & _ & -> & ->).
  rewrite app_nil_r in Hz. subst g1.
  assert (Hfull : forall a d ca,
             run_axis T_b cfg a (axis_values cfg a) [] = (d, ca, None) ->
             (forall h, In h (axis_values cfg a) ->
                exists s, dict_get h d = Some (NdArray s) /\
                          length s = length (z cfg)) /\
             ca = sweep_calls cfg a (axis_values cfg a) /\
             distinct_keys (dict_keys d) = true /\
             (forall k, In k (dict_keys d) -> In k (axis_values cfg a)) /\
             (length (dict_keys d) <= length (axis_values cfg a))%nat).
  { intros a d ca Ha.
    destruct (run_axis_full T_b cfg a _ _ _ _ Ha) as (Hf & _ & Hx & Hc);
      [constructor|].
    destruct (run_axis_keys T_b cfg a _ _ _ _ _ Ha) as (Hd & Hk & Hn).
    split; [|split; [exact Hc|split; [exact (Hd eq_refl)|split]]].
    - intros h Hin. specialize (Hx h Hin).
      destruct (dict_get h d) as [v|] eqn:Hv; [|congruence].
      destruct (dict_get_full _ _ _ _ Hf Hv) as (s & -> & Hs).
      exists s. split; [reflexivity | exact Hs].
    - intros k Hin. destruct (Hk k Hin) as [[]|Hin']. exact Hin'.
    - exact Hn. }
  destruct (Hfull Hubble _ _ Hh) as (Hh1 & -> & Hh3 & Hh4 & Hh5).
  destruct (Hfull Matter _ _ Hm) as (Hm1 & -> & Hm3 & Hm4 & Hm5).
  destruct (Hfull Baryon _ _ Hb) as (Hb1 & -> & Hb3 & Hb4 & Hb5).
  split; [split|split].
  - exists vs. split; [reflexivity | exact Hl].
  - intros [| |]; eexists; (split; [reflexivity|]); assumption.
  - simpl. rewrite <- !app_assoc. reflexivity.
  - intros [| |]; eexists; (split; [reflexivity|]); repeat split; assumption.
Qed.

End CompletedRun.

Section SweepCalls.

Variable cfg : config.

Lemma sweep_calls_length (a : axis) (xs : list float) :
  length (sweep_calls cfg a xs) = (length xs * length (z cfg))%nat.
Proof.
  unfold sweep_calls. induction xs as [|x xs IH]; simpl; [reflexivity|].
  rewrite length_app, length_map, IH. reflexivity.
Qed.

Lemma sweep_calls_app (a : axis) (xs ys : list float) :
  sweep_calls cfg a (xs ++ ys) = sweep_calls cfg a xs ++ sweep_calls cfg a ys.
Proof. unfold sweep_calls. apply flat_map_app. Qed.

Lemma sweep_calls_standard (a : axis) :
  In (std_value cfg a) (axis_values cfg a) ->
  exists pre post,
    sweep_calls cfg a (axis_values cfg a)
    = pre ++ map (the_call (std_params cfg)) (z cfg) ++ post.
Proof.
  intros Hin. destruct (in_split _ _ Hin) as (xs1 & xs2 & ->).
  exists (sweep_calls cfg a xs1), (sweep_calls cfg a xs2).
  rewrite sweep_calls_app. f_equal. unfold sweep_calls at 1. simpl.
  rewrite axis_params_std. reflexivity.
Qed.

End SweepCalls.

(** X1. A run of the sweeps that ends normally has called the simulation
    once per redshift for the standard model and once per redshift for
    every value of every axis, repeated values included: in grid order within
    a value, in list order within an axis, the axes in the order hubble,
    matter, baryon.  The number of calls is the size of the grid times one
    plus the sizes of the three lists. *)
Theorem completed_run_call_trace (T_b : simulation) (cfg : config)
  (Hrun : fst (run_script T_b cfg) = Ok tt) :
  T_b_calls (snd (run_script T_b cfg))
  = map (fun r => mkCall 50 r (hubble (std_params cfg))
                    (matter (std_params cfg)) (baryon (std_params cfg)))
        (z cfg)
    ++ flat_map (fun h => map (fun r => mkCall 50 r h
                                 (matter (std_params cfg))
                                 (baryon (std_params cfg))) (z cfg))
                (hubble_variations cfg)
    ++ flat_map (fun m => map (fun r => mkCall 50 r
                                 (hubble (std_params cfg)) m
                                 (baryon (std_params cfg))) (z cfg))
                (matter_variations cfg)
    ++ flat_map (fun b => map (fun r => mkCall 50 r
                                 (hubble (std_params cfg))
                                 (matter (std_params cfg)) b) (z cfg))
                (baryon_variations cfg) /\
  length (T_b_calls (snd (run_script T_b cfg)))
  = (length (z cfg)
     * (1 + length (hubble_variations cfg) + length (matter_variations cfg)
        + length (baryon_variations cfg)))%nat.
Proof.
  destruct (script_completed T_b cfg Hrun) as (_ & Hc & _).
  split; [exact Hc|].
  rewrite Hc, !length_app, length_map, !sweep_calls_length. lia.
Qed.

Lemma completed_run_call_trace_witness :
  length (T_b_calls (snd (run_script constant_simulation source_config)))
  = 300%nat.
Proof.
  destruct (completed_run_call_trace constant_simulation source_config)
    as [_ Hn].
  - vm_compute. reflexivity.
  - rewrite Hn. reflexivity.
Defined.

(** X2. The sweeps raise nothing of their own: when a run ends with an
    exception, that exception was raised by the last call of the simulation
    that the run made, and every earlier call returned. *)
Theorem script_raises_only_what_T_b_raised (T_b : simulation) (cfg : config)
  (e : pyexn)
  (Hfail : fst (run_script T_b cfg) = Raise e) :
  exists pre c,
    T_b_calls (snd (run_script T_b cfg)) = pre ++ [c] /\
    T_b (c_box c) (c_redshift c) (c_hubble c) (c_matter c) (c_baryon c)
    = Raise e /\
    Forall (fun c' => exists bt,
              T_b (c_box c') (c_redshift c') (c_hubble c') (c_matter c')
                  (c_baryon c') = Ok bt) pre.
Proof.
  unfold run_script in *.
  destruct (script_run T_b cfg initial_store) as (cs & Hcs & Ht & _).
  rewrite Hfail in Ht. simpl in Ht, Hcs.
  destruct Ht as (pre & c & -> & Hp & Hc).
  exists pre, c. repeat split; assumption.
Qed.

Lemma script_raises_only_what_T_b_raised_witness :
  exists pre c,
    T_b_calls (snd (run_script failing_simulation source_config)) = pre ++ [c] /\
    failing_simulation (c_box c) (c_redshift c) (c_hubble c) (c_matter c)
                       (c_baryon c)
    = Raise (PyExn "SimulationError").
Proof.
  destruct (script_raises_only_what_T_b_raised failing_simulation source_config
              (PyExn "SimulationError"))
    as (pre & c & Hc & Hf & _).
  - vm_compute. reflexivity.
  - exists pre, c. split; [exact Hc | exact Hf].
Defined.

(** X3. The sweep of an axis, from any store and whatever its outcome,
    leaves [Tb_std] and the dicts of the two other axes as they were, and
    binds its own dict anew: the keys it holds afterwards are values of the
    axis, whatever the dict held before. *)
Theorem axis_sweep_rebinds_only_its_dict (T_b : simulation) (cfg : config)
  (a : axis) (st : store) :
  Tb_std (snd (axis_sweep T_b cfg a st)) = Tb_std st /\
  (forall a', a' <> a ->
     axis_dict a' (snd (axis_sweep T_b cfg a st)) = axis_dict a' st) /\
  exists d,
    axis_dict a (snd (axis_sweep T_b cfg a st)) = Some d /\
    forall k, In k (dict_keys d) -> In k (axis_values cfg a).
Proof.
  rewrite axis_sweep_eq.
  destruct (run_axis T_b cfg a (axis_values cfg a) []) as [[d cs] e] eqn:Ha.
  simpl. split; [destruct a; reflexivity|]. split.
  - intros a' Hne. destruct a, a'; try reflexivity; congruence.
  - exists d. split; [apply axis_dict_set|].
    destruct (run_axis_keys T_b cfg a _ _ _ _ _ Ha) as (_ & Hk & _).
    intros k Hin. destruct (Hk k Hin) as [[]|H]. exact H.
Qed.

(** X13. What a failed run of the sweeps leaves bound: the names of the
    sweeps that had not started stay unbound.  Either [Tb_std] is still a
    Python list and no dict is bound, or [Tb_std] is an array and the dicts
    are bound up to the axis whose sweep failed. *)
Theorem failed_run_leaves_later_names_unbound (T_b : simulation) (cfg : config)
  (e : pyexn)
  (Hfail : fst (run_script T_b cfg) = Raise e) :
  let st := snd (run_script T_b cfg) in
  (exists vs, Tb_std st = Some (PyList vs) /\
              Tb_hubble st = None /\ Tb_matter st = None /\
              Tb_baryon st = None) \/
  (exists vs, Tb_std st = Some (NdArray vs) /\ length vs = length (z cfg) /\
     ((Tb_hubble st <> None /\ Tb_matter st = None /\ Tb_baryon st = None) \/
      (Tb_hubble st <> None /\ Tb_matter st <> None /\ Tb_baryon st = None) \/
      (Tb_hubble st <> None /\ Tb_matter st <> None /\ Tb_baryon st <> None))).
Proof.
  unfold run_script in *. rewrite script_eq in *.
  destruct (run_grid T_b (std_params cfg) (z cfg)) as [[vs cs] [ex|]] eqn:Hg.
  - left. exists vs. repeat split.
  - pose proof (run_grid_length _ _ _ _ _ _ Hg) as Hl. simpl in Hl.
    right. exists vs.
    destruct (run_axis T_b cfg Hubble (hubble_variations cfg) [])
      as [[dh ch] [eh|]].
    { simpl. repeat split; [exact Hl|]. left. repeat split. discriminate. }
    destruct (run_axis T_b cfg Matter (matter_variations cfg) [])
      as [[dm cm] [em|]].
    { simpl. repeat split; [exact Hl|]. right. left.
      repeat split; discriminate. }
    destruct (run_axis T_b cfg Baryon (baryon_variations cfg) [])
      as [[db cb] [eb|]]; [|discriminate].
    simpl. repeat split; [exact Hl|]. right. right.
    repeat split; discriminate.
Qed.

Lemma failed_run_leaves_later_names_unbound_witness :
  let st := snd (run_script failing_simulation source_config) in
  (exists vs, Tb_std st = Some (PyList vs) /\
              Tb_hubble st = None /\ Tb_matter st = None /\
              Tb_baryon st = None) \/
  (exists vs, Tb_std st = Some (NdArray vs) /\
     length vs = length (z source_config) /\
     ((Tb_hubble st <> None /\ Tb_matter st = None /\ Tb_baryon st = None) \/
      (Tb_hubble st <> None /\ Tb_matter st <> None /\ Tb_baryon st = None) \/
      (Tb_hubble st <> None /\ Tb_matter st <> None /\ Tb_baryon st <> None))).
Proof.
  apply (failed_run_leaves_later_names_unbound failing_simulation
           source_config (PyExn "SimulationError")).
  vm_compute. reflexivity.
Defined.

(** X14. When the list of an axis holds the standard value, a run that ends
    normally simulates the standard model a second time during the sweep of
    that axis: the calls of the standard model, in grid order, occur again
    later in the trace. *)
Theorem standard_value_is_simulated_again (T_b : simulation) (cfg : config)
  (a : axis)
  (Hin : In (std_value cfg a) (axis_values cfg a))
  (Hrun : fst (run_script T_b cfg) = Ok tt) :
  exists between after,
    T_b_calls (snd (run_script T_b cfg))
    = map (the_call (std_params cfg)) (z cfg)
      ++ between
      ++ map (the_call (std_params cfg)) (z cfg)
      ++ after.
Proof.
  destruct (script_completed T_b cfg Hrun) as (_ & Hc & _).
  destruct (sweep_calls_standard cfg a Hin) as (pre & post & Hs).
  rewrite Hc. destruct a; simpl in Hs; rewrite Hs.
  - exists pre. eexists. rewrite <- !app_assoc. reflexivity.
  - exists (sweep_calls cfg Hubble (hubble_variations cfg) ++ pre).
    eexists. rewrite <- !app_assoc. reflexivity.
  - exists (sweep_calls cfg Hubble (hubble_variations cfg)
            ++ sweep_calls cfg Matter (matter_variations cfg) ++ pre).
    eexists. rewrite <- !app_assoc. reflexivity.
Qed.

Lemma standard_value_is_simulated_again_witness :
  exists between after,
    T_b_calls (snd (run_script constant_simulation source_config))
    = map (the_call (std_params source_config)) (z source_config)
      ++ between
      ++ map (the_call (std_params source_config)) (z source_config)
      ++ after.
Proof.
  apply (standard_value_is_simulated_again constant_simulation source_config
           Hubble).
  - simpl. right. left. reflexivity.
  - vm_compute. reflexivity.
Defined.

(** ** The reporting part after a completed run *)

Section ReportAfterRun.

Lemma map_fst_combine {A B : Type} (xs : list A) (cs : list B) :
  map fst (combine xs cs) = firstn (length cs) xs.
Proof.
  revert cs. induction xs as [|x xs IH]; intros [|c cs]; simpl; try reflexivity.
  rewrite IH. reflexivity.
Qed.

Lemma map_fst_filter {A B : Type} (p : A -> bool) (l : list (A * B)) :
  map fst (filter (fun x => p (fst x)) l) = filter p (map fst l).
Proof.
  induction l as [|x l IH]; simpl; [reflexivity|].
  destruct (p (fst x)); simpl; rewrite IH; reflexivity.
Qed.

Lemma Forall2_map_same {A B C : Type} (R : B -> C -> Prop) (f : A -> B)
      (g : A -> C) (l : list A) :
  (forall x, In x l -> R (f x) (g x)) -> Forall2 R (map f l) (map g l).
Proof.
  induction l as [|x l IH]; intros H; simpl; constructor.
  - apply H. left. reflexivity.
  - apply IH. intros y Hy. apply H. right. exact Hy.
Qed.

Variable cfg : config.

Lemma axis_colors_length (a : axis) : length (axis_colors a) = 3%nat.
Proof. destruct a; reflexivity. Qed.

Lemma plotted_values_fst (a : axis) :
  map fst (plotted_values cfg a)
  = filter (fun h => negb (F64.eqb h (std_value cfg a)))
           (firstn 3 (axis_values cfg a)).
Proof.
  unfold plotted_values, zipped, is_standard.
  rewrite (map_fst_filter (fun h => negb (F64.eqb h (std_value cfg a)))).
  rewrite map_fst_combine, axis_colors_length. reflexivity.
Qed.

Lemma plotted_values_length (a : axis) :
  (length (plotted_values cfg a) <= 3)%nat.
Proof.
  unfold plotted_values, zipped.
  pose proof (filter_length_le
                (fun hc : float * string => negb (is_standard cfg a (fst hc)))
                (combine (axis_values cfg a) (axis_colors a))) as H.
  rewrite length_combine, axis_colors_length in H. lia.
Qed.

Lemma plotted_values_In (a : axis) (hc : float * string) :
  In hc (plotted_values cfg a) ->
  In (fst hc) (axis_values cfg a) /\
  F64.eqb (fst hc) (std_value cfg a) = false.
Proof.
  unfold plotted_values. intros H. apply filter_In in H.
  destruct H as [Hin Hs]. split; [exact (zipped_value cfg a hc Hin)|].
  apply negb_true_iff in Hs. exact Hs.
Qed.

Lemma printed_values_In (a : axis) (h : float) :
  In h (printed_values cfg a) ->
  In h (axis_values cfg a) /\ F64.eqb h (std_value cfg a) = false.
Proof.
  unfold printed_values. intros H. apply filter_In in H.
  destruct H as [Hin Hs]. split; [exact Hin|].
  apply negb_true_iff in Hs. exact Hs.
Qed.

Variable T_b : simulation.

Lemma analysis_eq :
  fst (run_script T_b cfg) = Ok tt ->
  analysis cfg T_b initial_store = reporting cfg (snd (run_script T_b cfg)).
Proof.
  unfold analysis, run_script. intros H.
  apply (bind_ok (script T_b cfg) (fun _ => reporting cfg) initial_store
                 (snd (script T_b cfg initial_store)) tt).
  rewrite (surjective_pairing (script T_b cfg initial_store)) at 1.
  rewrite H. reflexivity.
Qed.

Lemma run_axis_empty_grid (a : axis) (xs : list float) :
  z cfg = [] ->
  forall d, exists d', run_axis T_b cfg a xs d = (d', [], None).
Proof.
  intros Hz. induction xs as [|x xs IH]; intros d; simpl.
  - exists d. reflexivity.
  - rewrite Hz. simpl.
    destruct (IH (dict_set x (NdArray []) d)) as (d' & ->).
    exists d'. reflexivity.
Qed.

Lemma script_empty_grid :
  z cfg = [] ->
  fst (run_script T_b cfg) = Ok tt /\
  T_b_calls (snd (run_script T_b cfg)) = [].
Proof.
  intros Hz. unfold run_script. rewrite script_eq.
  destruct (run_axis_empty_grid Hubble (hubble_variations cfg) Hz []) as (dh & ->).
  destruct (run_axis_empty_grid Matter (matter_variations cfg) Hz []) as (dm & ->).
  destruct (run_axis_empty_grid Baryon (baryon_variations cfg) Hz []) as (db & ->).
  rewrite Hz. simpl. split; reflexivity.
Qed.

End ReportAfterRun.

(** X5. After sweeps that ended normally on a grid that is not empty, the
    reporting part runs to its end and leaves the store as the sweeps left
    it.  The plots take the values of an axis zipped with its three colours:
    of every axis they show the values among the first three of the list
    that are not [==] to the standard one.  The printed summary zips nothing:
    it has a row for every value of the list that is not [==] to the
    standard one. *)
Theorem plots_take_three_values_summary_takes_all
  (T_b : simulation) (cfg : config)
  (Hrun : fst (run_script T_b cfg) = Ok tt)
  (Hz : z cfg <> []) :
  exists r,
    analysis cfg T_b initial_store = (Ok r, snd (run_script T_b cfg)) /\
    map (fun c => (curve_axis c, curve_value c)) (overview r)
    = flat_map (fun a => map (pair a)
                  (filter (fun h => negb (F64.eqb h (std_value cfg a)))
                          (firstn 3 (axis_values cfg a))))
               [Hubble; Matter; Baryon] /\
    map (fun c => (curve_axis c, curve_value c)) (differences r)
    = flat_map (fun a => map (pair a)
                  (filter (fun h => negb (F64.eqb h (std_value cfg a)))
                          (firstn 3 (axis_values cfg a))))
               [Hubble; Matter; Baryon] /\
    map (fun row => (row_axis row, row_value row)) (snd (printed r))
    = flat_map (fun a => map (pair a)
                  (filter (fun h => negb (F64.eqb h (std_value cfg a)))
                          (axis_values cfg a)))
               [Hubble; Matter; Baryon].
Proof.
  destruct (script_completed T_b cfg Hrun) as (Hst & _).
  destruct (reporting_ok cfg _ Hst Hz) as (r & Hr & Ho & Hd & _ & Hp).
  exists r. rewrite (analysis_eq cfg T_b Hrun). split; [exact Hr|].
  assert (Hs : forall a,
             map (fun c => (curve_axis c, curve_value c))
                 (stored_curves cfg (snd (run_script T_b cfg)) a)
             = map (pair a)
                 (filter (fun h => negb (F64.eqb h (std_value cfg a)))
                         (firstn 3 (axis_values cfg a)))).
  { intros a. unfold stored_curves. rewrite map_map. simpl.
    rewrite <- plotted_values_fst, map_map. reflexivity. }
  assert (Hc : forall a,
             map (fun c => (curve_axis c, curve_value c))
                 (percent_curves cfg (snd (run_script T_b cfg)) a)
             = map (pair a)
                 (filter (fun h => negb (F64.eqb h (std_value cfg a)))
                         (firstn 3 (axis_values cfg a)))).
  { intros a. unfold percent_curves. rewrite map_map. simpl.
    rewrite <- plotted_values_fst, map_map. reflexivity. }
  assert (Hw : forall a,
             map (fun row => (row_axis row, row_value row))
                 (printed_rows cfg (snd (run_script T_b cfg)) a)
             = map (pair a)
                 (filter (fun h => negb (F64.eqb h (std_value cfg a)))
                         (axis_values cfg a))).
  { intros a. unfold printed_rows. rewrite map_map. reflexivity. }
  rewrite Ho, Hd, Hp. simpl. rewrite !map_app, !Hs, !Hc, !Hw, !app_nil_r.
  repeat split.
Qed.

Lemma plots_take_three_values_summary_takes_all_witness :
  exists r,
    fst (analysis (mkConfig [f10; f12] (mkParams f10 f12 f20)
                            [f12; f20; F64.of_Z 30; F64.of_Z 40] [f12] [f20])
                  constant_simulation initial_store) = Ok r /\
    length (overview r) = 3%nat /\
    length (snd (printed r)) = 4%nat.
Proof.
  destruct (plots_take_three_values_summary_takes_all constant_simulation
              (mkConfig [f10; f12] (mkParams f10 f12 f20)
                        [f12; f20; F64.of_Z 30; F64.of_Z 40] [f12] [f20]))
    as (r & Hr & Ho & _ & Hp).
  - vm_compute. reflexivity.
  - discriminate.
  - exists r. rewrite Hr. split; [reflexivity|].
    apply (f_equal (@length _)) in Ho. apply (f_equal (@length _)) in Hp.
    rewrite length_map in Ho, Hp. rewrite Ho, Hp.
    split; vm_compute; reflexivity.
Defined.

Section CurveFacts.

Variable cfg : config.
Variable st : store.
Hypothesis Hst : completed cfg st.

Lemma percent_curves_In (a : axis) (c : curve) :
  In c (percent_curves cfg st a) ->
  curve_axis c = a /\
  In (curve_value c) (axis_values cfg a) /\
  F64.eqb (curve_value c) (std_value cfg a) = false /\
  curve_data c = zip_with percent (series_of st a (curve_value c))
                          (standard_series st) /\
  length (series_of st a (curve_value c)) = length (z cfg) /\
  length (standard_series st) = length (z cfg).
Proof.
  unfold percent_curves. intros H. apply in_map_iff in H.
  destruct H as (hc & <- & Hin). simpl.
  destruct (plotted_values_In cfg a hc Hin) as [Hv Hs].
  split; [reflexivity|]. split; [exact Hv|]. split; [exact Hs|].
  split; [reflexivity|].
  split; [exact (proj2 (completed_getitem cfg st Hst a (fst hc) Hv))|].
  exact (proj2 (completed_std cfg st Hst)).
Qed.

Lemma printed_rows_In (a : axis) (r : summary_row) :
  In r (printed_rows cfg st a) ->
  row_axis r = a /\
  In (row_value r) (axis_values cfg a) /\
  F64.eqb (row_value r) (std_value cfg a) = false /\
  row_final r = final_of (series_of st a (row_value r)) /\
  row_diff r = percent (final_of (series_of st a (row_value r)))
                       (final_of (standard_series st)).
Proof.
  unfold printed_rows. intros H. apply in_map_iff in H.
  destruct H as (h & <- & Hin). simpl.
  destruct (printed_values_In cfg a h Hin) as [Hv Hs].
  repeat split; assumption.
Qed.

Lemma in_three_axes {A : Type} (f : axis -> list A) (x : A) :
  In x (f Hubble ++ f Matter ++ f Baryon) -> exists a, In x (f a).
Proof.
  intros H. apply in_app_or in H. destruct H as [H|H]; [eauto|].
  apply in_app_or in H. destruct H as [H|H]; eauto.
Qed.

End CurveFacts.

(** X6. After sweeps that ended normally, the percentage differences of
    lines 182-203 are computed without any exception (no missing key, no
    mismatch of shapes) and the store is left as it was.  Every curve
    belongs to a value of its axis that is not [==] to the standard one, has
    one point per redshift, and its point at index [i] is
    [(series[i] - Tb_std[i]) / Tb_std[i] * 100] for the series stored under
    that value. *)
Theorem difference_curves_after_completed_run
  (T_b : simulation) (cfg : config)
  (Hrun : fst (run_script T_b cfg) = Ok tt) :
  exists cs,
    percentage_differences cfg (snd (run_script T_b cfg))
    = (Ok cs, snd (run_script T_b cfg)) /\
    Forall (fun c =>
      In (curve_value c) (axis_values cfg (curve_axis c)) /\
      F64.eqb (curve_value c) (std_value cfg (curve_axis c)) = false /\
      length (curve_data c) = length (z cfg) /\
      forall i si bi,
        nth_error (series_of (snd (run_script T_b cfg)) (curve_axis c)
                             (curve_value c)) i = Some si ->
        nth_error (standard_series (snd (run_script T_b cfg))) i = Some bi ->
        nth_error (curve_data c) i
        = Some (F64.mul (F64.div (F64.sub si bi) bi) (F64.of_Z 100))) cs.
Proof.
  destruct (script_completed T_b cfg Hrun) as (Hst & _).
  eexists. split; [apply (percentage_differences_ok cfg _ Hst)|].
  apply Forall_forall. intros c Hc.
  apply (in_three_axes (percent_curves cfg (snd (run_script T_b cfg)))) in Hc.
  destruct Hc as (a & Hc).
  destruct (percent_curves_In cfg _ Hst a c Hc) as (<- & Hv & Hs & Hd & Hl1 & Hl2).
  split; [exact Hv|]. split; [exact Hs|]. rewrite Hd. split.
  - rewrite zip_with_length by congruence. exact Hl2.
  - intros i si bi Hsi Hbi. exact (zip_with_nth percent _ _ _ _ _ Hsi Hbi).
Qed.

Lemma difference_curves_after_completed_run_witness :
  exists cs,
    percentage_differences source_config
      (snd (run_script constant_simulation source_config))
    = (Ok cs, snd (run_script constant_simulation source_config)) /\
    length cs = 6%nat.
Proof.
  destruct (difference_curves_after_completed_run constant_simulation
              source_config) as (cs & Hcs & _).
  - vm_compute. reflexivity.
  - exists cs. split; [exact Hcs|].
    assert (H : fst (percentage_differences source_config
                       (snd (run_script constant_simulation source_config)))
                = Ok cs) by (rewrite Hcs; reflexivity).
    vm_compute in H. injection H as <-. reflexivity.
Defined.

(** X7. After sweeps that ended normally on a grid that is not empty, the
    three lists of the final comparison (lines 216-242) are filled without
    any exception and side by side: they have the same length, at most ten;
    the first bar is ['Standard'], black, with the final item of [Tb_std];
    every other bar carries the final item of the series stored under the
    value its label names. *)
Theorem comparison_bars_aligned (T_b : simulation) (cfg : config)
  (Hrun : fst (run_script T_b cfg) = Ok tt)
  (Hz : z cfg <> []) :
  exists b,
    final_comparison cfg (snd (run_script T_b cfg))
    = (Ok b, snd (run_script T_b cfg)) /\
    length (parameters b) = length (values b) /\
    length (values b) = length (colors b) /\
    (length (values b) <= 10)%nat /\
    hd_error (parameters b) = Some Standard /\
    hd_error (colors b) = Some "black"%string /\
    Forall2 (fun p v =>
               match p with
               | Standard =>
                   last_item (standard_series (snd (run_script T_b cfg))) = Ok v
               | AxisValue a h =>
                   last_item (series_of (snd (run_script T_b cfg)) a h) = Ok v
               end)
            (parameters b) (values b).
Proof.
  destruct (script_completed T_b cfg Hrun) as (Hst & _).
  eexists. split; [apply (final_comparison_ok cfg _ Hst Hz)|].
  pose proof (plotted_values_length cfg Hubble).
  pose proof (plotted_values_length cfg Matter).
  pose proof (plotted_values_length cfg Baryon).
  simpl. rewrite !length_app, !length_map.
  split; [reflexivity|]. split; [reflexivity|]. split; [lia|].
  split; [reflexivity|]. split; [reflexivity|].
  assert (Hax : forall a,
             Forall2 (fun p v =>
               match p with
               | Standard =>
                   last_item (standard_series (snd (run_script T_b cfg))) = Ok v
               | AxisValue a h =>
                   last_item (series_of (snd (run_script T_b cfg)) a h) = Ok v
               end)
               (map (fun hc => AxisValue a (fst hc)) (plotted_values cfg a))
               (map (fun hc => final_of (series_of (snd (run_script T_b cfg))
                                                   a (fst hc)))
                    (plotted_values cfg a))).
  { intros a. apply Forall2_map_same. intros hc Hin.
    apply (completed_final cfg _ Hst Hz).
    exact (proj1 (plotted_values_In cfg a hc Hin)). }
  constructor.
  - exact (completed_std_final cfg _ Hst Hz).
  - repeat apply Forall2_app; apply Hax.
Qed.

Lemma comparison_bars_aligned_witness :
  exists b,
    final_comparison source_config
      (snd (run_script constant_simulation source_config))
    = (Ok b, snd (run_script constant_simulation source_config)) /\
    length (parameters b) = length (values b) /\
    length (values b) = length (colors b).
Proof.
  destruct (comparison_bars_aligned constant_simulation source_config)
    as (b & Hb & Hpv & Hvc & _).
  - vm_compute. reflexivity.
  - intros H. vm_compute in H. discriminate.
  - exists b. split; [exact Hb|]. split; [exact Hpv | exact Hvc].
Defined.

Section EmptyGrid.

Variable cfg : config.
Variable st : store.
Hypothesis Hst : completed cfg st.
Hypothesis Hz : z cfg = [].

Lemma final_comparison_empty :
  final_comparison cfg st = (Raise IndexError, st).
Proof.
  unfold final_comparison.
  destruct (completed_std cfg st Hst) as [Hr Hl].
  rewrite (bind_ok _ _ _ _ _ Hr).
  apply bind_raise. unfold lift. simpl items.
  rewrite Hz in Hl. apply length_zero_iff_nil in Hl. rewrite Hl.
  reflexivity.
Qed.

Lemma reporting_empty : reporting cfg st = (Raise IndexError, st).
Proof.
  unfold reporting.
  rewrite (bind_ok _ _ _ _ _ (all_variations_ok cfg st Hst)).
  rewrite (bind_ok _ _ _ _ _ (hubble_panel_ok cfg st Hst)).
  rewrite (bind_ok _ _ _ _ _ (axis_panel_ok cfg st Hst Matter)).
  rewrite (bind_ok _ _ _ _ _ (axis_panel_ok cfg st Hst Baryon)).
  rewrite (bind_ok _ _ _ _ _ (percentage_differences_ok cfg st Hst)).
  apply bind_raise. exact final_comparison_empty.
Qed.

End EmptyGrid.

(** X8. With an empty redshift grid the sweeps end normally without a single
    call of the simulation, every series being an empty array; the plots and
    the percentage differences are then computed on empty arrays, and the
    script ends with [IndexError] at [Tb_std[-1]] of the final comparison. *)
Theorem empty_grid_raises_index_error (T_b : simulation) (cfg : config)
  (Hz : z cfg = []) :
  fst (run_script T_b cfg) = Ok tt /\
  T_b_calls (snd (run_script T_b cfg)) = [] /\
  Tb_std (snd (run_script T_b cfg)) = Some (NdArray []) /\
  analysis cfg T_b initial_store
  = (Raise IndexError, snd (run_script T_b cfg)).
Proof.
  destruct (script_empty_grid cfg T_b Hz) as [Hrun Hcalls].
  destruct (script_completed T_b cfg Hrun) as (Hst & _).
  split; [exact Hrun|]. split; [exact Hcalls|]. split.
  - destruct Hst as [(vs & Hvs & Hl) _]. rewrite Hz in Hl.
    apply length_zero_iff_nil in Hl. rewrite Hvs, Hl. reflexivity.
  - rewrite (analysis_eq cfg T_b Hrun).
    exact (reporting_empty cfg _ Hst Hz).
Qed.

Lemma empty_grid_raises_index_error_witness :
  fst (analysis (mkConfig [] (mkParams f10 f12 f20) [f10; f12] [f12] [f20])
                failing_simulation initial_store)
  = Raise IndexError.
Proof.
  destruct (empty_grid_raises_index_error failing_simulation
              (mkConfig [] (mkParams f10 f12 f20) [f10; f12] [f12] [f20]))
    as (_ & _ & _ & H).
  - reflexivity.
  - rewrite H. reflexivity.
Defined.

(** X9. After sweeps that ended normally on a grid that is not empty, the
    printed summary agrees with the plots: the standard observable printed is
    the final item of [Tb_std], the observable printed in a row is the final
    item of the series stored under the row's value, and the difference
    printed in a row is the final point of the difference curve plotted for
    the same axis and value. *)
Theorem summary_matches_difference_curves (T_b : simulation) (cfg : config)
  (Hrun : fst (run_script T_b cfg) = Ok tt)
  (Hz : z cfg <> []) :
  exists cs v rows,
    percentage_differences cfg (snd (run_script T_b cfg))
    = (Ok cs, snd (run_script T_b cfg)) /\
    summary cfg (snd (run_script T_b cfg))
    = (Ok (v, rows), snd (run_script T_b cfg)) /\
    last_item (standard_series (snd (run_script T_b cfg))) = Ok v /\
    Forall (fun r =>
              last_item (series_of (snd (run_script T_b cfg)) (row_axis r)
                                   (row_value r)) = Ok (row_final r)) rows /\
    forall c r,
      In c cs -> In r rows ->
      curve_axis c = row_axis r -> curve_value c = row_value r ->
      last_item (curve_data c) = Ok (row_diff r).
Proof.
  destruct (script_completed T_b cfg Hrun) as (Hst & _).
  do 3 eexists.
  split; [apply (percentage_differences_ok cfg _ Hst)|].
  split; [apply (summary_ok cfg _ Hst Hz)|].
  split; [exact (completed_std_final cfg _ Hst Hz)|].
  split.
  - apply Forall_forall. intros r Hr.
    apply (in_three_axes (printed_rows cfg (snd (run_script T_b cfg)))) in Hr.
    destruct Hr as (a & Hr).
    destruct (printed_rows_In cfg _ a r Hr) as (<- & Hv & _ & -> & _).
    exact (completed_final cfg _ Hst Hz _ _ Hv).
  - intros c r Hc Hr Ha Hv.
    apply (in_three_axes (percent_curves cfg (snd (run_script T_b cfg)))) in Hc.
    apply (in_three_axes (printed_rows cfg (snd (run_script T_b cfg)))) in Hr.
    destruct Hc as (a & Hc). destruct Hr as (a' & Hr).
    destruct (percent_curves_In cfg _ Hst a c Hc) as (Hca & _ & _ & Hd & Hl1 & Hl2).
    destruct (printed_rows_In cfg _ a' r Hr) as (Hra & _ & _ & _ & Hdiff).
    assert (Ea : a' = a) by congruence.
    rewrite Ea in Hdiff.
    rewrite Hd, Hdiff, <- Hv.
    assert (Hne : series_of (snd (run_script T_b cfg)) a (curve_value c) <> []).
    { exact (nonempty_of_length _ _ Hl1 Hz). }
    rewrite <- final_of_percent by (congruence || exact Hne).
    apply last_item_ok. intros E.
    apply (f_equal (@length _)) in E.
    rewrite zip_with_length in E by congruence.
    rewrite Hl2 in E. simpl in E. apply length_zero_iff_nil in E.
    exact (Hz E).
Qed.

Lemma summary_matches_difference_curves_witness :
  exists v rows,
    summary source_config (snd (run_script constant_simulation source_config))
    = (Ok (v, rows), snd (run_script constant_simulation source_config)) /\
    last_item (standard_series
                 (snd (run_script constant_simulation source_config))) = Ok v.
Proof.
  destruct (summary_matches_difference_curves constant_simulation source_config)
    as (cs & v & rows & _ & Hs & Hv & _).
  - vm_compute. reflexivity.
  - intros H. vm_compute in H. discriminate.
  - exists v, rows. split; [exact Hs | exact Hv].
Defined.

(** ** NaN, the grid and the final entries *)

Section NaN.

Lemma add_nan_l (y : float) : F64.add F64.nan y = F64.nan.
Proof. destruct y; reflexivity. Qed.

Lemma add_nan_r (x : float) : F64.add x F64.nan = F64.nan.
Proof. destruct x; reflexivity. Qed.

Lemma is_nan_eq (x : float) : F64.is_nan x = true -> x = F64.nan.
Proof. destruct x; simpl; try discriminate. reflexivity. Qed.

Lemma np_sum_nan (l : list float) :
  Exists (fun x => F64.is_nan x = true) l -> np_sum l = F64.nan.
Proof.
  intros H. apply (np_sum_bad (fun x => x = F64.nan)).
  - intros x y ->. apply add_nan_l.
  - intros x y ->. apply add_nan_r.
  - eapply Exists_impl; [|exact H]. exact is_nan_eq.
Qed.

Lemma div_nan_l (y : float) : F64.div F64.nan y = F64.nan.
Proof. destruct y; reflexivity. Qed.

Lemma percent_nan_l (b : float) : percent F64.nan b = F64.nan.
Proof.
  unfold percent. rewrite F64Facts.of_Z_100. destruct b; reflexivity.
Qed.

Lemma percent_nan_r (s : float) : percent s F64.nan = F64.nan.
Proof.
  unfold percent. rewrite F64Facts.of_Z_100. destruct s; reflexivity.
Qed.

End NaN.

(** X10. A NaN is never averaged away nor hidden: the mean of a field that
    holds a NaN is NaN, and where a series of the grid's length holds that
    mean, its percentage difference against any baseline, and the percentage
    difference of any series against it as baseline, is NaN at that index. *)
Theorem nan_in_field_reaches_difference
  (field s b : list float) (i : nat) (bi : float)
  (Hnan : Exists (fun x => F64.is_nan x = true) field)
  (Hlen : length s = length b)
  (Hs : nth_error s i = Some (np_mean field))
  (Hb : nth_error b i = Some bi) :
  np_mean field = F64.nan /\
  (exists d, diff s b = Ok d /\ nth_error d i = Some F64.nan) /\
  (exists d, diff b s = Ok d /\ nth_error d i = Some F64.nan).
Proof.
  assert (Hm : np_mean field = F64.nan).
  { unfold np_mean. rewrite (np_sum_nan field Hnan). apply div_nan_l. }
  split; [exact Hm|]. rewrite Hm in Hs. split.
  - exists (zip_with percent s b). split; [apply diff_same_length, Hlen|].
    rewrite (zip_with_nth percent _ _ _ _ _ Hs Hb), percent_nan_l.
    reflexivity.
  - exists (zip_with percent b s).
    split; [apply diff_same_length; symmetry; exact Hlen|].
    rewrite (zip_with_nth percent _ _ _ _ _ Hb Hs), percent_nan_r.
    reflexivity.
Qed.

Lemma nan_in_field_reaches_difference_witness :
  exists d, diff [f10; np_mean [f12; F64.nan]] [f10; f12] = Ok d /\
            nth_error d 1 = Some F64.nan.
Proof.
  apply (nan_in_field_reaches_difference [f12; F64.nan]
           [f10; np_mean [f12; F64.nan]] [f10; f12] 1 f12).
  - right. left. reflexivity.
  - reflexivity.
  - reflexivity.
  - reflexivity.
Defined.

(** X11. [np.linspace(start, stop, num)] has exactly [num] points, and with
    two points or more its last point is [stop] itself, assigned and not
    computed: the grid of the script ends exactly at the final redshift. *)
Theorem linspace_length_endpoint (start stop : float) (n : nat) :
  length (linspace start stop n) = n /\
  last_item (linspace start stop (S (S n))) = Ok stop.
Proof.
  split.
  - unfold linspace.
    destruct (0 <? Z.of_nat n - 1) eqn:E.
    + apply Z.ltb_lt in E.
      rewrite length_app, removelast_firstn_len, length_firstn.
      change (length [stop]) with 1%nat.
      destruct (F64.eqb _ _); rewrite !length_map, length_seq; lia.
    + rewrite !length_map, length_seq. reflexivity.
  - unfold linspace.
    replace (0 <? Z.of_nat (S (S n)) - 1) with true
      by (symmetry; apply Z.ltb_lt; lia).
    apply last_item_snoc.
Qed.

(** X12. The percentage difference of the final entries raises [IndexError]
    exactly when one of the two series is empty.  Otherwise it is computed
    from the two final entries alone, the lengths of the series playing no
    part. *)
Theorem diff_last_edge (s b : list float) :
  (diff_last s b = Raise IndexError <-> s = [] \/ b = []) /\
  forall x y, diff_last (s ++ [x]) (b ++ [y]) = Ok (percent x y).
Proof.
  split.
  - split.
    + intros H. destruct s as [|x0 s0]; [left; reflexivity|].
      destruct b as [|y0 b0]; [right; reflexivity|]. exfalso.
      destruct (@exists_last _ (x0 :: s0)) as (s' & x & Es); [discriminate|].
      destruct (@exists_last _ (y0 :: b0)) as (b' & y & Eb); [discriminate|].
      rewrite Es, Eb in H. unfold diff_last in H.
      rewrite !last_item_snoc in H. discriminate.
    + intros [-> | ->]; [reflexivity|].
      destruct s as [|x0 s0]; [reflexivity|].
      destruct (@exists_last _ (x0 :: s0)) as (s' & x & ->); [discriminate|].
      unfold diff_last. rewrite last_item_snoc. reflexivity.
  - intros x y. unfold diff_last. rewrite !last_item_snoc. reflexivity.
Qed.

(** ** The trace of a sweep, call by call *)

Section TraceFacts.

Variable T_b : simulation.
Variable cfg : config.

Lemma observable_Forall2 (p : params) (g vs : list float) :
  Forall2 (fun r v => observable T_b p r = Ok v) g vs ->
  Forall2 (fun r v => exists bt,
             T_b 50 r (hubble p) (matter p) (baryon p) = Ok bt /\
             v = np_mean (brightness_temp bt)) g vs.
Proof.
  induction 1 as [|r v g vs Hv _ IH]; constructor; [|exact IH].
  exact (observable_ok_inv T_b p r v Hv).
Qed.

Lemma run_grid_ok_calls (p : params) (g vs : list float) (cs : list call) :
  run_grid T_b p g = (vs, cs, None) ->
  cs = map (the_call p) g /\
  Forall2 (fun r v => observable T_b p r = Ok v) g vs.
Proof.
  intros H. destruct (run_grid_inv T_b p g _ _ _ H) as (g1 & rest & Hg & HF & -> & ->).
  rewrite app_nil_r in Hg. subst g1. split; [reflexivity | exact HF].
Qed.

Lemma sweep_calls_cons (a : axis) (x : float) (xs : list float) :
  sweep_calls cfg a (x :: xs)
  = map (the_call (axis_params cfg a x)) (z cfg) ++ sweep_calls cfg a xs.
Proof. reflexivity. Qed.

(** The calls of a pass over an axis are the first calls of the full sweep,
    and all of them when the pass ends normally. *)
Lemma run_axis_prefix (a : axis) (xs : list float) :
  forall d d' cs e,
    run_axis T_b cfg a xs d = (d', cs, e) ->
    (exists rest, sweep_calls cfg a xs = cs ++ rest) /\
    (e = None -> cs = sweep_calls cfg a xs).
Proof.
  induction xs as [|x xs IH]; intros d d' cs e H; simpl in H.
  - injection H as <- <- <-. split; [exists []; reflexivity | reflexivity].
  - destruct (run_grid T_b (axis_params cfg a x) (z cfg)) as [[vs cs1] [ex|]] eqn:Hg.
    + injection H as <- <- <-.
      destruct (run_grid_inv T_b _ _ _ _ _ Hg)
        as (g1 & rest & Hz & _ & r & g2 & -> & _ & ->).
      split; [|discriminate].
      exists (map (the_call (axis_params cfg a x)) g2 ++ sweep_calls cfg a xs).
      assert (E : map (the_call (axis_params cfg a x)) (z cfg)
                  = (map (the_call (axis_params cfg a x)) g1
                     ++ [the_call (axis_params cfg a x) r])
                    ++ map (the_call (axis_params cfg a x)) g2).
      { rewrite Hz, map_app, <- app_assoc. reflexivity. }
      rewrite sweep_calls_cons, E, <- !app_assoc. reflexivity.
    + destruct (run_axis T_b cfg a xs (dict_set x (NdArray vs) d))
        as [[d2 cs2] e2] eqn:Ha.
      injection H as <- <- <-.
      destruct (run_grid_ok_calls _ _ _ _ Hg) as [-> _].
      destruct (IH _ _ _ _ Ha) as [(rest & Hrest) Hall].
      split.
      * exists rest. rewrite sweep_calls_cons, Hrest, app_assoc. reflexivity.
      * intros He. rewrite (Hall He), sweep_calls_cons. reflexivity.
Qed.

(** Where a pass over an axis failed: at which value, at which redshift, and
    what it left under that value. *)
Lemma run_axis_failure_detail (a : axis) (xs : list float) :
  forall d d' cs e,
    run_axis T_b cfg a xs d = (d', cs, Some e) ->
    exists xs1 x xs2 g1 r g2 vs,
      xs = xs1 ++ x :: xs2 /\
      z cfg = g1 ++ r :: g2 /\
      cs = sweep_calls cfg a xs1
           ++ map (the_call (axis_params cfg a x)) g1
           ++ [the_call (axis_params cfg a x) r] /\
      dict_get x d' = Some (PyList vs) /\
      Forall2 (fun r' v => observable T_b (axis_params cfg a x) r' = Ok v) g1 vs.
Proof.
  induction xs as [|x xs IH]; intros d d' cs e H; simpl in H.
  - discriminate.
  - destruct (run_grid T_b (axis_params cfg a x) (z cfg)) as [[vs cs1] [ex|]] eqn:Hg.
    + injection H as <- <- <-.
      destruct (run_grid_inv T_b _ _ _ _ _ Hg)
        as (g1 & rest & Hz & HF & r & g2 & -> & _ & ->).
      exists [], x, xs, g1, r, g2, vs.
      repeat split; [exact Hz | apply dict_get_set | exact HF].
    + destruct (run_axis T_b cfg a xs (dict_set x (NdArray vs) d))
        as [[d2 cs2] e2] eqn:Ha.
      injection H as <- <- ->.
      destruct (run_grid_ok_calls _ _ _ _ Hg) as [-> _].
      destruct (IH _ _ _ _ Ha)
        as (xs1 & x0 & xs2 & g1 & r & g2 & vs0 & -> & Hz & -> & Hget & HF).
      exists (x :: xs1), x0, xs2, g1, r, g2, vs0.
      repeat split; try assumption.
      rewrite sweep_calls_cons, <- app_assoc. reflexivity.
Qed.

(** Where a run of the sweeps failed, and what it left. *)
Lemma script_failure_cases (e : pyexn) :
  fst (run_script T_b cfg) = Raise e ->
  exists g1 r g2 vs p,
    z cfg = g1 ++ r :: g2 /\
    Forall2 (fun r' v => observable T_b p r' = Ok v) g1 vs /\
    ((p = std_params cfg /\
      T_b_calls (snd (run_script T_b cfg))
      = map (the_call p) g1 ++ [the_call p r] /\
      Tb_std (snd (run_script T_b cfg)) = Some (PyList vs) /\
      Tb_hubble (snd (run_script T_b cfg)) = None /\
      Tb_matter (snd (run_script T_b cfg)) = None /\
      Tb_baryon (snd (run_script T_b cfg)) = None) \/
     (exists a xs1 x xs2 d full,
        p = axis_params cfg a x /\
        axis_values cfg a = xs1 ++ x :: xs2 /\
        T_b_calls (snd (run_script T_b cfg))
        = map (the_call (std_params cfg)) (z cfg)
          ++ earlier_calls cfg a
          ++ sweep_calls cfg a xs1
          ++ map (the_call p) g1 ++ [the_call p r] /\
        axis_dict a (snd (run_script T_b cfg)) = Some d /\
        dict_get x d = Some (PyList vs) /\
        Tb_std (snd (run_script T_b cfg)) = Some (NdArray full) /\
        length full = length (z cfg))).
Proof.
  unfold run_script. rewrite script_eq.
  destruct (run_grid T_b (std_params cfg) (z cfg)) as [[vs cs] [ex|]] eqn:Hg.
  { intros _.
    destruct (run_grid_inv T_b _ _ _ _ _ Hg)
      as (g1 & rest & Hz & HF & r & g2 & -> & _ & ->).
    exists g1, r, g2, vs, (std_params cfg).
    split; [exact Hz|]. split; [exact HF|]. left. repeat split. }
  pose proof (run_grid_length T_b _ _ _ _ _ Hg) as Hl. simpl in Hl.
  destruct (run_grid_ok_calls _ _ _ _ Hg) as [-> _].
  assert (Hax : forall a d ca ex,
             run_axis T_b cfg a (axis_values cfg a) [] = (d, ca, Some ex) ->
             exists g1 r g2 vs0 xs1 x xs2,
               z cfg = g1 ++ r :: g2 /\
               Forall2 (fun r' v => observable T_b (axis_params cfg a x) r' = Ok v)
                       g1 vs0 /\
               axis_values cfg a = xs1 ++ x :: xs2 /\
               ca = sweep_calls cfg a xs1
                    ++ map (the_call (axis_params cfg a x)) g1
                    ++ [the_call (axis_params cfg a x) r] /\
               dict_get x d = Some (PyList vs0)).
  { intros a d ca ex Ha.
    destruct (run_axis_failure_detail a _ _ _ _ _ Ha)
      as (xs1 & x & xs2 & g1 & r & g2 & vs0 & Hx & Hz & Hc & Hget & HF).
    exists g1, r, g2, vs0, xs1, x, xs2. repeat split; assumption. }
  destruct (run_axis T_b cfg Hubble (hubble_variations cfg) [])
    as [[dh ch] [eh|]] eqn:Hh.
  { intros _.
    destruct (Hax Hubble _ _ _ Hh)
      as (g1 & r & g2 & vs0 & xs1 & x & xs2 & Hz & HF & Hx & -> & Hget).
    exists g1, r, g2, vs0, (axis_params cfg Hubble x).
    split; [exact Hz|]. split; [exact HF|]. right.
    exists Hubble, xs1, x, xs2, dh, vs.
    repeat split; try assumption;
      simpl; rewrite <- ?app_assoc; reflexivity. }
  destruct (run_axis_prefix Hubble _ _ _ _ _ Hh) as [_ Hch].
  rewrite (Hch eq_refl).
  destruct (run_axis T_b cfg Matter (matter_variations cfg) [])
    as [[dm cm] [em|]] eqn:Hm.
  { intros _.
    destruct (Hax Matter _ _ _ Hm)
      as (g1 & r & g2 & vs0 & xs1 & x & xs2 & Hz & HF & Hx & -> & Hget).
    exists g1, r, g2, vs0, (axis_params cfg Matter x).
    split; [exact Hz|]. split; [exact HF|]. right.
    exists Matter, xs1, x, xs2, dm, vs.
    repeat split; try assumption;
      simpl; rewrite <- ?app_assoc; reflexivity. }
  destruct (run_axis_prefix Matter _ _ _ _ _ Hm) as [_ Hcm].
  rewrite (Hcm eq_refl).
  destruct (run_axis T_b cfg Baryon (baryon_variations cfg) [])
    as [[db cb] [eb|]] eqn:Hb; [|discriminate].
  intros _.
  destruct (Hax Baryon _ _ _ Hb)
    as (g1 & r & g2 & vs0 & xs1 & x & xs2 & Hz & HF & Hx & -> & Hget).
  exists g1, r, g2, vs0, (axis_params cfg Baryon x).
  split; [exact Hz|]. split; [exact HF|]. right.
  exists Baryon, xs1, x, xs2, db, vs.
  repeat split; try assumption;
    simpl; rewrite <- ?app_assoc; reflexivity.
Qed.

Lemma axis_field_the_call (a : axis) (x r : float) :
  axis_field a (the_call (axis_params cfg a x) r) = x.
Proof. destruct a; reflexivity. Qed.

End TraceFacts.

(** C8 (amended). When a call of the simulation made by the script raises,
    the script ends with that very exception and that call is the last one
    made.  The series that was being filled is kept as a Python list: it
    holds exactly the observables of the redshifts that come before the
    failing one in the grid, computed with the parameters of the failing
    call, so it is shorter than the grid.  If the failing call belongs to the
    standard model, that list is bound to [Tb_std] and no dict is bound; if
    it belongs to the sweep of a value of an axis, [Tb_std] is a full array
    and the list is the entry under that value in the dict of that axis. *)
Theorem failed_call_ends_script (T_b : simulation) (cfg : config)
  (c : call) (e : pyexn)
  (Hc : In c (T_b_calls (snd (run_script T_b cfg))))
  (Hfail : T_b (c_box c) (c_redshift c) (c_hubble c) (c_matter c) (c_baryon c)
           = Raise e) :
  fst (run_script T_b cfg) = Raise e /\
  exists g1 g2 vs,
    z cfg = g1 ++ c_redshift c :: g2 /\
    Forall2 (fun r v => exists bt,
               T_b 50 r (c_hubble c) (c_matter c) (c_baryon c) = Ok bt /\
               v = np_mean (brightness_temp bt)) g1 vs /\
    (length vs < length (z cfg))%nat /\
    ((c = the_call (std_params cfg) (c_redshift c) /\
      T_b_calls (snd (run_script T_b cfg))
      = map (the_call (std_params cfg)) g1 ++ [c] /\
      Tb_std (snd (run_script T_b cfg)) = Some (PyList vs) /\
      Tb_hubble (snd (run_script T_b cfg)) = None /\
      Tb_matter (snd (run_script T_b cfg)) = None /\
      Tb_baryon (snd (run_script T_b cfg)) = None) \/
     (exists a xs1 xs2 d full,
        c = the_call (axis_params cfg a (axis_field a c)) (c_redshift c) /\
        axis_values cfg a = xs1 ++ axis_field a c :: xs2 /\
        T_b_calls (snd (run_script T_b cfg))
        = map (the_call (std_params cfg)) (z cfg)
          ++ earlier_calls cfg a
          ++ sweep_calls cfg a xs1
          ++ map (the_call (axis_params cfg a (axis_field a c))) g1
          ++ [c] /\
        axis_dict a (snd (run_script T_b cfg)) = Some d /\
        dict_get (axis_field a c) d = Some (PyList vs) /\
        Tb_std (snd (run_script T_b cfg)) = Some (NdArray full) /\
        length full = length (z cfg))).
Proof.
  destruct (script_run T_b cfg initial_store) as (cs & Hcs & Ht & _).
  change (script T_b cfg initial_store) with (run_script T_b cfg) in *.
  simpl in Hcs. rewrite Hcs in Hc.
  destruct (trace_ok_failed T_b cs _ c e Ht Hc Hfail) as (He & pre & Hpre).
  assert (Hr : fst (run_script T_b cfg) = Raise e).
  { destruct (fst (run_script T_b cfg)); simpl in He; congruence. }
  split; [exact Hr|].
  destruct (script_failure_cases T_b cfg e Hr)
    as (g1 & r & g2 & vs & p & Hz & HF & Hcase).
  assert (Hlast : c = the_call p r).
  { destruct Hcase as [(_ & Hcalls & _)
                      | (a & xs1 & x & xs2 & d & full & _ & _ & Hcalls & _)];
      rewrite Hcs, Hpre in Hcalls.
    - apply app_inj_tail in Hcalls. apply Hcalls.
    - rewrite !app_assoc in Hcalls. apply app_inj_tail in Hcalls.
      apply Hcalls. }
  subst c. simpl c_redshift. simpl c_hubble. simpl c_matter. simpl c_baryon.
  exists g1, g2, vs. split; [exact Hz|].
  split; [exact (observable_Forall2 T_b p g1 vs HF)|].
  split.
  { apply Forall2_length in HF. rewrite Hz, length_app, <- HF. simpl. lia. }
  destruct Hcase as [(-> & Hcalls & Hstd & Hh & Hm & Hb)
                    | (a & xs1 & x & xs2 & d & full & -> & Hx & Hcalls & Hd
                       & Hget & Hstd & Hfull)].
  - left. repeat split; assumption.
  - right. exists a, xs1, xs2, d, full.
    rewrite axis_field_the_call. repeat split; assumption.
Qed.

Lemma failed_call_ends_script_witness :
  fst (run_script failing_simulation source_config)
  = Raise (PyExn "SimulationError").
Proof.
  apply (failed_call_ends_script failing_simulation source_config
           (mkCall 50 (F64.of_Z 5) (F64.lit 71 100) (F64.lit 31 100)
                   (F64.lit 2 100))).
  - assert (H : T_b_calls (snd (run_script failing_simulation source_config))
                = removelast (T_b_calls
                                (snd (run_script failing_simulation source_config)))
                  ++ [mkCall 50 (F64.of_Z 5) (F64.lit 71 100) (F64.lit 31 100)
                             (F64.lit 2 100)])
      by (vm_compute; reflexivity).
    rewrite H. apply in_or_app. right. left. reflexivity.
  - vm_compute. reflexivity.
Defined.

(** C7. The calls of the simulation made by the sweep of an axis are, in
    order, those of the list below: for every value [x] of the axis's list
    in turn, one call per redshift of the grid in which the axis's own
    parameter is [x] and the two other parameters are the standard ones.  A
    sweep that an exception ends makes the first calls of that list, a sweep
    that ends normally makes them all.  So every call made has its own
    parameter taken from the axis's list and the two others equal to the
    standard ones; and after a sweep that ends normally over pairwise
    different values, the series stored under a value [x] holds the means of
    the fields simulated with the axis's parameter set to [x]. *)
Theorem axis_sweep_overrides_one_field (T_b : simulation) (cfg : config)
  (a : axis) (st : store) :
  let call_of (x r : float) : call :=
    match a with
    | Hubble => mkCall 50 r x (matter (std_params cfg)) (baryon (std_params cfg))
    | Matter => mkCall 50 r (hubble (std_params cfg)) x (baryon (std_params cfg))
    | Baryon => mkCall 50 r (hubble (std_params cfg)) (matter (std_params cfg)) x
    end in
  let all_calls : list call :=
    flat_map (fun x => map (call_of x) (z cfg)) (axis_values cfg a) in
  exists cs,
    T_b_calls (snd (axis_sweep T_b cfg a st)) = T_b_calls st ++ cs /\
    (exists rest, all_calls = cs ++ rest) /\
    Forall (fun c =>
      In (c_redshift c) (z cfg) /\
      match a with
      | Hubble => In (c_hubble c) (hubble_variations cfg) /\
                  c_matter c = matter (std_params cfg) /\
                  c_baryon c = baryon (std_params cfg)
      | Matter => c_hubble c = hubble (std_params cfg) /\
                  In (c_matter c) (matter_variations cfg) /\
                  c_baryon c = baryon (std_params cfg)
      | Baryon => c_hubble c = hubble (std_params cfg) /\
                  c_matter c = matter (std_params cfg) /\
                  In (c_baryon c) (baryon_variations cfg)
      end) cs /\
    (fst (axis_sweep T_b cfg a st) = Ok tt ->
     cs = all_calls /\
     (distinct_keys (axis_values cfg a) = true ->
      exists d,
        axis_dict a (snd (axis_sweep T_b cfg a st)) = Some d /\
        forall x, In x (axis_values cfg a) ->
          exists vs,
            dict_get x d = Some (NdArray vs) /\
            Forall2 (fun r v => exists bt,
                       call_result T_b (call_of x r) = Ok bt /\
                       v = np_mean (brightness_temp bt))
                    (z cfg) vs)).
Proof.
  intros call_of all_calls.
  assert (Hcall : forall x r, call_of x r = the_call (axis_params cfg a x) r).
  { intros x r. unfold call_of. destruct a; reflexivity. }
  assert (Hall : all_calls = sweep_calls cfg a (axis_values cfg a)).
  { unfold all_calls, sweep_calls. apply flat_map_ext. intros x.
    apply map_ext. intros r. apply Hcall. }
  destruct (axis_sweep_calls_form T_b cfg a st) as (cs & Hc & HF).
  exists cs. split; [exact Hc|].
  rewrite axis_sweep_eq in *.
  destruct (run_axis T_b cfg a (axis_values cfg a) []) as [[d cs'] e] eqn:Ha.
  assert (cs' = cs).
  { assert (Hc' : T_b_calls (set_axis_dict a d (add_calls cs' st))
                  = T_b_calls st ++ cs') by (destruct a; reflexivity).
    simpl in Hc. rewrite Hc' in Hc. exact (app_inv_head _ _ _ Hc). }
  subst cs'.
  destruct (run_axis_prefix T_b cfg a _ _ _ _ _ Ha) as [Hpre Hfull].
  split; [rewrite Hall; exact Hpre|].
  split.
  { eapply Forall_impl; [|exact HF].
    intros c (x & r & Hx & Hr & ->).
    destruct a; simpl in *; repeat split; assumption. }
  simpl. intros He. destruct e as [ex|]; [discriminate|].
  split; [rewrite Hall; exact (Hfull eq_refl)|].
  intros Hd. exists d. split; [apply axis_dict_set|].
  destruct (run_axis_distinct T_b cfg a _ _ _ _ Ha Hd) as [Hdict Hok].
  { intros k y []. }
  simpl in Hdict. subst d. intros x Hx.
  rewrite (dict_get_map_distinct _ _ _ Hd Hx). unfold axis_series.
  specialize (Hok x Hx).
  destruct (run_grid T_b (axis_params cfg a x) (z cfg)) as [[vs cx] ex] eqn:Hg.
  simpl in Hok. subst ex. exists vs. split; [reflexivity|].
  destruct (run_grid_ok_calls T_b _ _ _ _ Hg) as [_ HF2].
  apply observable_Forall2 in HF2.
  eapply Forall2_impl; [|exact HF2].
  intros r v (bt & Hbt & Hv). exists bt. split; [|exact Hv].
  rewrite Hcall. exact Hbt.
Qed.

(** X4. After a run of the sweeps that ends normally, for every axis whose
    list of values holds no NaN, repeated values included: every value of
    the list finds an entry in the dict of the axis, every entry found is an
    array with one item per redshift, and the keys of the dict are values of
    the list no two of which are [==], so that a value listed several times
    has one entry and there are at most as many keys as values. *)
Theorem sweep_dicts_after_completed_run (T_b : simulation) (cfg : config)
  (a : axis)
  (Hnan : Forall (fun x => F64.is_nan x = false) (axis_values cfg a))
  (Hrun : fst (run_script T_b cfg) = Ok tt) :
  exists d,
    axis_dict a (snd (run_script T_b cfg)) = Some d /\
    (forall h, In h (axis_values cfg a) ->
       exists s, dict_get h d = Some (NdArray s) /\
                 length s = length (z cfg)) /\
    ForallOrdPairs (fun k k' => F64.eqb k k' = false) (dict_keys d) /\
    (forall k, In k (dict_keys d) -> In k (axis_values cfg a)) /\
    (length (dict_keys d) <= length (axis_values cfg a))%nat.
Proof.
  destruct (script_completed T_b cfg Hrun) as ([_ Hd] & _ & Hk).
  destruct (Hd a) as (d & Ha & Hall).
  destruct (Hk a) as (d' & Ha' & Hdist & Hin & Hlen).
  assert (d' = d) by congruence. subst d'.
  exists d. split; [exact Ha|]. split; [exact Hall|].
  split; [|split; assumption].
  clear - Hdist. induction (dict_keys d) as [|k l IH]; [constructor|].
  simpl in Hdist. apply andb_prop in Hdist. destruct Hdist as [Hk Hl].
  constructor; [|exact (IH Hl)].
  rewrite forallb_forall in Hk. apply Forall_forall. intros k' Hk'.
  specialize (Hk k' Hk'). apply negb_true_iff in Hk.
  unfold key_eqb in Hk. apply orb_false_elim in Hk. apply Hk.
Qed.

Lemma sweep_dicts_after_completed_run_witness :
  exists d,
    Tb_matter (snd (run_script constant_simulation
                      (mkConfig [f10; f12] (mkParams f10 f12 f20)
                                [f10] [f12; f12; f12] [f20]))) = Some d /\
    length (dict_keys d) = 1%nat.
Proof.
  destruct (sweep_dicts_after_completed_run constant_simulation
              (mkConfig [f10; f12] (mkParams f10 f12 f20)
                        [f10] [f12; f12; f12] [f20]) Matter)
    as (d & Hd & _).
  - repeat constructor.
  - vm_compute. reflexivity.
  - exists d. split; [exact Hd|].
    simpl in Hd. vm_compute in Hd. injection Hd as <-. reflexivity.
Defined.
